(** * extract_highlight.py: highlight selection over an onset-strength curve

    A shallow embedding of [src/extract_highlight.py] and the properties its
    specification states about it.

    Numbers.  Python [float] values are modelled as exact rationals [Q]:
    comparisons, [min], [max], sums and quotients are the exact ones and
    rounding is not modelled.  Python [int] values are [Z] or [nat] (indices
    and lengths).  Equalities between computed rationals are stated with
    [==] ([Qeq]).

    Libraries.  [librosa.load], [librosa.beat.beat_track] and
    [librosa.onset.onset_strength] are external: they are fields of a
    [World] record and may return a value or raise.  [librosa.get_duration],
    [librosa.frames_to_time], [np.ones], [np.convolve], [np.argmax] and
    [np.mean] are written out from their documented behaviour.

    Effects.  The script writes to a log file, prints one JSON line and
    exits; a run is the list of [event]s it performs, in order. *)

From Stdlib Require Import String Ascii QArith Qround Qminmax ZArith Bool Lia Lqa Arith List.

Import ListNotations.

Local Open Scope Q_scope.

(** ** Python values and exceptions *)

(** Exceptions derived from [Exception] that can reach the handler at the
    end of the script.  [str(e)] is [exn_str]. *)
Inductive exn : Type :=
| ZeroDivisionError
| ValueError (msg : string)
| LibraryError (msg : string).

Definition exn_str (e : exn) : string :=
  match e with
  | ZeroDivisionError => "float division by zero"
  | ValueError msg => msg
  | LibraryError msg => msg
  end.

Inductive pyresult (A : Type) : Type :=
| Ok (a : A)
| Raise (e : exn).

Arguments Ok {A} a.

Arguments Raise {A} e.

(** The value [beat_track] returns for the tempo: a plain scalar or an
    [np.ndarray]. *)
Inductive tempo_value : Type :=
| TempoScalar (t : Q)
| TempoArray (ts : list Q).

(** [float(tempo.item() if isinstance(tempo, np.ndarray) else tempo)]:
    [ndarray.item()] raises [ValueError] unless the array has one element. *)
Definition float_of_tempo (tempo : tempo_value) : pyresult Q :=
  match tempo with
  | TempoScalar t => Ok t
  | TempoArray [t] => Ok t
  | TempoArray _ =>
      Raise (ValueError "can only convert an array of size 1 to a Python scalar")
  end.

(** ** Comparisons, [min] and [max] *)

Definition Qltb (x y : Q) : bool := negb (Qle_bool y x).

Definition Qgtb (x y : Q) : bool := Qltb y x.

(** Python's [max(a, b)] keeps [a] unless [b > a]; [min(a, b)] keeps [a]
    unless [b < a]. *)
Definition py_max (a b : Q) : Q := if Qgtb b a then b else a.

Definition py_min (a b : Q) : Q := if Qltb b a then b else a.

(** [peak_energy / mean_energy] on Python floats. *)
Definition py_div (x y : Q) : pyresult Q :=
  if Qeq_bool y 0 then Raise ZeroDivisionError else Ok (x / y).

(** ** librosa's time conversions *)

Definition hop_length : Z := 512.

(** [librosa.get_duration(y=y, sr=sr)]: number of samples over sample rate. *)
Definition get_duration (y : list Q) (sr : positive) : Q :=
  Z.of_nat (length y) # sr.

(** [librosa.frames_to_time(frame, sr=sr)] with the default hop of 512. *)
Definition frames_to_time (frame : nat) (sr : positive) : Q :=
  (Z.of_nat frame * hop_length) # sr.

(** ** The selector's numpy calls *)

(** [int(5 * sr / 512)]: [int] drops the fractional part.  The quotient
    [5 * sr / 512] is exact in binary floating point while [5 * sr < 2^53],
    which covers every sample rate an audio file can have. *)
Definition window_size (sr : positive) : Z :=
  Z.quot (5 * Z.pos sr) hop_length.

(** [np.ones(n)]. *)
Definition np_ones (n : Z) : pyresult (list Q) :=
  if (n <? 0)%Z then Raise (ValueError "negative dimensions are not allowed")
  else Ok (repeat 1 (Z.to_nat n)).

Fixpoint dot (xs ys : list Q) : Q :=
  match xs, ys with
  | x :: xs', y :: ys' => x * y + dot xs' ys'
  | _, _ => 0
  end.

(** [count] successive outputs of a sliding inner product of [v] on [a]. *)
Fixpoint correlate_from (count : nat) (a v : list Q) : list Q :=
  match count with
  | O => []
  | S count' => dot a v :: correlate_from count' (tl a) v
  end.

(** [multiarray.correlate(a, v, 'valid')] for [length v <= length a]. *)
Definition correlate_valid (a v : list Q) : list Q :=
  correlate_from (length a - length v + 1) a v.

(** [np.convolve(a, v, 'valid')].  NumPy exchanges the operands when [v] is
    the longer one, refuses empty operands, and correlates [a] with [v]
    reversed; the output has [max(M, N) - min(M, N) + 1] entries. *)
Definition np_convolve_valid (a v : list Q) : pyresult (list Q) :=
  let '(a, v) := if (length a <? length v)%nat then (v, a) else (a, v) in
  match a, v with
  | [], _ => Raise (ValueError "a cannot be empty")
  | _, [] => Raise (ValueError "v cannot be empty")
  | _, _ => Ok (correlate_valid a (rev v))
  end.

(** Left-to-right scan of [np.argmax]: the running best is replaced only by
    a strictly larger value. *)
Fixpoint argmax_scan (best_idx : nat) (best : Q) (idx : nat) (xs : list Q) : nat :=
  match xs with
  | [] => best_idx
  | x :: xs' =>
      if Qgtb x best then argmax_scan idx x (S idx) xs'
      else argmax_scan best_idx best (S idx) xs'
  end.

Definition np_argmax (xs : list Q) : pyresult nat :=
  match xs with
  | [] => Raise (ValueError "attempt to get argmax of an empty sequence")
  | x :: xs' => Ok (argmax_scan 0%nat x 1%nat xs')
  end.

Definition Qsum (xs : list Q) : Q := fold_right Qplus 0 xs.

(** [np.mean] of a one-dimensional array. *)
Definition np_mean (xs : list Q) : Q :=
  Qsum xs / inject_Z (Z.of_nat (length xs)).

(** ** Boundary policy (lines 67-72) *)

(** The start after the [if] of lines 68-70 and the duration of line 72, as
    functions of the raw start and the track duration.  [try_block] below
    has the same two lines inline, with their log calls. *)
Definition clamp_start (start_time duration : Q) : Q :=
  if Qgtb start_time (duration - 20) then py_max 0 (duration - 20)
  else start_time.

Definition highlight_duration (start_time duration : Q) : Q :=
  py_min 20 (duration - start_time).

(** ** JSON output *)

(** The two dictionaries the script prints have string keys and string or
    number values.  A number is a rational whatever its Python type: the
    [0] that [max(0, duration - 20)] may return is an [int]. *)
Inductive jvalue : Type :=
| JStr (s : string)
| JNum (x : Q).

Definition json : Type := list (string * jvalue).

Definition quote_char : ascii := "034"%char.

Definition backslash_char : ascii := "092"%char.

Definition newline_char : ascii := "010"%char.

Definition hex_digit (n : nat) : ascii :=
  nth n (list_ascii_of_string "0123456789abcdef") "0"%char.

(** One character under [json.dumps]'s default [ensure_ascii=True]; strings
    hold code points below 256, one per [ascii]. *)
Definition escape_char (c : ascii) : string :=
  let n := nat_of_ascii c in
  let esc (d : ascii) := String backslash_char (String d EmptyString) in
  if (n =? 34)%nat then esc quote_char
  else if (n =? 92)%nat then esc backslash_char
  else if (n =? 10)%nat then esc "n"%char
  else if (n =? 13)%nat then esc "r"%char
  else if (n =? 9)%nat then esc "t"%char
  else if (n =? 12)%nat then esc "f"%char
  else if (n =? 8)%nat then esc "b"%char
  else if ((32 <=? n) && (n <=? 126))%nat then String c EmptyString
  else String backslash_char
         (String "u" (String "0" (String "0"
           (String (hex_digit (n / 16)) (String (hex_digit (n mod 16)) EmptyString))))).

Fixpoint escape_string (s : string) : string :=
  match s with
  | EmptyString => EmptyString
  | String c s' => (escape_char c ++ escape_string s')%string
  end.

Definition dumps_string (s : string) : string :=
  (String quote_char (escape_string s) ++ String quote_char EmptyString)%string.

Section Dumps.
(** [float.__repr__], used by [json.dumps] for numbers. *)
Variable float_repr : Q -> string.

Definition dumps_value (v : jvalue) : string :=
  match v with
  | JStr s => dumps_string s
  | JNum x => float_repr x
  end.

Definition dumps_item (kv : string * jvalue) : string :=
  (dumps_string (fst kv) ++ ": " ++ dumps_value (snd kv))%string.

Fixpoint dumps_items (kvs : json) : string :=
  match kvs with
  | [] => EmptyString
  | [kv] => dumps_item kv
  | kv :: kvs' => (dumps_item kv ++ ", " ++ dumps_items kvs')%string
  end.

(** [json.dumps] of a flat dictionary, default separators. *)
Definition json_dumps (j : json) : string :=
  ("{" ++ dumps_items j ++ "}")%string.
End Dumps.

(** The Highlight Result of the data model. *)
Record Highlight : Type := mkHighlight {
  start : Q;
  duration : Q;
  confidence : Q;
  energy_ratio : Q
}.

Definition highlight_json (h : Highlight) : json :=
  [ ("start"%string, JNum (start h));
    ("duration"%string, JNum (duration h));
    ("confidence"%string, JNum (confidence h));
    ("energy_ratio"%string, JNum (energy_ratio h)) ].

Definition error_json (msg : string) : json :=
  [ ("error"%string, JStr msg) ].

Arguments highlight_json : simpl never.

Arguments error_json : simpl never.

(** ** Effects *)

(** The lines [log_debug] is called with, before formatting. *)
Inductive log_msg : Type :=
| MsgProcessing (audio_path : string)
| MsgDuration (d : Q)
| MsgTempo (tempo : Q)
| MsgBeats (n : nat)
| MsgRatio (r : Q)
| MsgAdjust (start_time : Q)
| MsgSelected (from_time to_time : Q).

Inductive event : Type :=
| LogOpen
| LogWrite (m : log_msg)
| LogFlush
| LogClose
| LoadAudio (audio_path : string)
| Print (j : json)
| Exit (code : Z).

(** A computation performs events and then returns or raises. *)
Definition M (A : Type) : Type := (list event * pyresult A)%type.

Definition ret {A} (a : A) : M A := ([], Ok a).

Definition bind {A B} (m : M A) (f : A -> M B) : M B :=
  match m with
  | (tr, Ok a) => let '(tr', r) := f a in (tr ++ tr', r)
  | (tr, Raise e) => (tr, Raise e)
  end.

Definition emit (evs : list event) : M unit := (evs, Ok tt).

Definition lift {A} (r : pyresult A) : M A := ([], r).

Declare Scope py_scope.

Delimit Scope py_scope with py.

Notation "x <- m ;; k" := (bind m (fun x => k))
  (at level 61, m at next level, right associativity) : py_scope.

Notation "' p <- m ;; k" := (bind m (fun x => let 'p := x in k))
  (at level 61, p pattern, m at next level, right associativity) : py_scope.

Notation "m ;; k" := (bind m (fun _ => k))
  (at level 61, right associativity) : py_scope.

(** What the run takes from outside: the three librosa analyses and the
    text [traceback.format_exc()] gives for an exception. *)
Record World : Type := mkWorld {
  librosa_load : string -> pyresult (list Q * positive);
  beat_track : list Q -> positive -> pyresult (tempo_value * list nat);
  onset_strength : list Q -> positive -> pyresult (list Q);
  format_exc : exn -> string
}.

Definition log_debug (m : log_msg) : M unit := emit [LogWrite m; LogFlush].

Section Script.
Variable W : World.
Local Open Scope py_scope.

(** Lines 33-82: the body of the [try]. *)
Definition try_block (audio_path : string) : M unit :=
  log_debug (MsgProcessing audio_path) ;;
  emit [LoadAudio audio_path] ;;
  '(y, sr) <- lift (librosa_load W audio_path) ;;
  let duration := get_duration y sr in
  log_debug (MsgDuration duration) ;;
  '(tempo, beats) <- lift (beat_track W y sr) ;;
  let beat_times := map (fun b => frames_to_time b sr) beats in
  tempo <- lift (float_of_tempo tempo) ;;
  log_debug (MsgTempo tempo) ;;
  log_debug (MsgBeats (length beats)) ;;
  onset_env <- lift (onset_strength W y sr) ;;
  let window_size := window_size sr in
  ones <- lift (np_ones window_size) ;;
  onset_sum <- lift (np_convolve_valid onset_env ones) ;;
  peak_idx <- lift (np_argmax onset_sum) ;;
  let start_time := frames_to_time peak_idx sr in
  let peak_energy := nth peak_idx onset_sum 0 in
  let mean_energy := np_mean onset_sum in
  energy_ratio <- lift (py_div peak_energy mean_energy) ;;
  log_debug (MsgRatio energy_ratio) ;;
  start_time <-
    (if Qgtb start_time (duration - 20)
     then log_debug (MsgAdjust start_time) ;; ret (py_max 0 (duration - 20))
     else ret start_time) ;;
  let highlight_duration := py_min 20 (duration - start_time) in
  log_debug (MsgSelected start_time (start_time + highlight_duration)) ;;
  let result := mkHighlight start_time highlight_duration energy_ratio energy_ratio in
  emit [Print (highlight_json result)] ;;
  emit [LogClose].

(** The whole script: the log is opened (line 13), the argument count is
    checked (lines 26-28), then the [try] runs under its handler (lines
    83-88).  Falling off the end of the script exits with code 0. *)
Definition main (argv : list string) : list event :=
  LogOpen ::
  if (length argv <? 2)%nat then
    [Print (error_json "No audio file provided"); Exit 1]
  else
    let audio_path := nth 1 argv EmptyString in
    match try_block audio_path with
    | (tr, Ok _) => tr ++ [Exit 0]
    | (tr, Raise e) =>
        let error_msg :=
          (exn_str e ++ String newline_char (format_exc W e))%string in
        tr ++ [Print (error_json error_msg); LogClose; Exit 1]
    end.
End Script.

(** ** Observations on a run *)

Fixpoint stdout (tr : list event) : list json :=
  match tr with
  | [] => []
  | Print j :: tr' => j :: stdout tr'
  | _ :: tr' => stdout tr'
  end.

Fixpoint exit_code (tr : list event) : option Z :=
  match tr with
  | [] => None
  | Exit code :: _ => Some code
  | _ :: tr' => exit_code tr'
  end.

(** The log was closed by the time the process exits. *)
Fixpoint closed_at_exit (is_open : bool) (tr : list event) : bool :=
  match tr with
  | [] => negb is_open
  | LogOpen :: tr' => closed_at_exit true tr'
  | LogClose :: tr' => closed_at_exit false tr'
  | Exit _ :: _ => negb is_open
  | _ :: tr' => closed_at_exit is_open tr'
  end.

Fixpoint loads (tr : list event) : list string :=
  match tr with
  | [] => []
  | LoadAudio p :: tr' => p :: loads tr'
  | _ :: tr' => loads tr'
  end.

(** A successful run: one Highlight Result on standard output, exit code 0. *)
Definition succeeds_with (tr : list event) (h : Highlight) : Prop :=
  stdout tr = [highlight_json h] /\ exit_code tr = Some 0%Z.

(** A failed run: one Error Result on standard output, exit code 1. *)
Definition fails_with (tr : list event) (msg : string) : Prop :=
  stdout tr = [error_json msg] /\ exit_code tr = Some 1%Z.

(** ** The window size in the specification's words *)

(** The specification's wording of the window size: Python's [round]
    (halves go to the even neighbour) of [5 * sr / 512], raised to 1. *)
Definition py_round (q : Q) : Z :=
  let f := Qfloor q in
  let r := q - inject_Z f in
  if Qltb r (1 # 2) then f
  else if Qltb (1 # 2) r then (f + 1)%Z
  else if Z.even f then f else (f + 1)%Z.

Definition spec_window_size (sr : positive) : Z :=
  Z.max 1 (py_round (5 * inject_Z (Z.pos sr) / inject_Z hop_length)).

(** ** The values of a run, without its log *)

Definition rbind {A B} (r : pyresult A) (f : A -> pyresult B) : pyresult B :=
  match r with
  | Ok a => f a
  | Raise e => Raise e
  end.

(** Lines 54-64 as a function of the onset curve: the peak index and the
    energy ratio. *)
Definition select_window (onset_env : list Q) (sr : positive) : pyresult (nat * Q) :=
  rbind (np_ones (window_size sr)) (fun ones =>
  rbind (np_convolve_valid onset_env ones) (fun onset_sum =>
  rbind (np_argmax onset_sum) (fun peak_idx =>
  rbind (py_div (nth peak_idx onset_sum 0) (np_mean onset_sum)) (fun energy_ratio =>
  Ok (peak_idx, energy_ratio))))).

(** Lines 43-48: the rhythm analysis and the coercion of its tempo. *)
Definition rhythm (W : World) (y : list Q) (sr : positive) : pyresult Q :=
  rbind (beat_track W y sr) (fun '(tempo, beats) => float_of_tempo tempo).

(** Lines 50-80: the Highlight Result for a loaded waveform. *)
Definition selection (W : World) (y : list Q) (sr : positive) : pyresult Highlight :=
  rbind (onset_strength W y sr) (fun onset_env =>
  rbind (select_window onset_env sr) (fun '(peak_idx, energy_ratio) =>
  let track_duration := get_duration y sr in
  let start_time := clamp_start (frames_to_time peak_idx sr) track_duration in
  Ok (mkHighlight start_time (highlight_duration start_time track_duration)
        energy_ratio energy_ratio))).

(** Lines 36-80 as a function of the world: what [try_block] prints when it
    returns, or the exception it raises ([try_block_refines]). *)
Definition analysis (W : World) (audio_path : string) : pyresult Highlight :=
  rbind (librosa_load W audio_path) (fun '(y, sr) =>
  rbind (rhythm W y sr) (fun _ => selection W y sr)).

(** The same world with another Rhythm Analyzer. *)
Definition with_beat_track (W : World)
    (bt : list Q -> positive -> pyresult (tempo_value * list nat)) : World :=
  mkWorld (librosa_load W) bt (onset_strength W) (format_exc W).

(** The Rhythm Analyzer returned a tempo the script can coerce. *)
Definition rhythm_returns (r : pyresult (tempo_value * list nat)) : Prop :=
  exists tempo beats t, r = Ok (tempo, beats) /\ float_of_tempo tempo = Ok t.

(** Events that touch neither standard output nor the state of the log
    handle. *)
Definition quiet (ev : event) : bool :=
  match ev with
  | LogWrite _ | LogFlush | LoadAudio _ => true
  | _ => false
  end.

(** [f"{str(e)}\n{traceback.format_exc()}"] *)
Definition error_message (W : World) (e : exn) : string :=
  (exn_str e ++ String newline_char (format_exc W e))%string.

(** The line printed on the missing-argument path. *)
Definition no_audio_line : string :=
  ("{" ++ String quote_char "error" ++ String quote_char ": "
       ++ String quote_char "No audio file provided" ++ String quote_char "}")%string.

(** ** Predicates on curve values *)


Definition is_zero (x : Q) : Prop := x == 0.

(** ** Concrete runs *)

Definition script_name : string := "extract_highlight.py".

(** A one-second clip at librosa's rate: 22050 samples, 44 onset frames. *)
Definition clip_waveform : list Q := repeat (1 # 2) (Pos.to_nat 22050).

Definition clip_world : World :=
  mkWorld
    (fun _ => Ok (clip_waveform, 22050%positive))
    (fun _ _ => Ok (TempoArray [120], [10; 21; 32]%nat))
    (fun _ _ => Ok (repeat 1 44))
    (fun _ => "Traceback (most recent call last):"%string).

Definition clip_argv : list string := [script_name; "clip.wav"%string].

(** A thirty-second track at 1024 Hz (window of 10 frames), 61 onset
    frames, a burst around frame 24. *)
Definition track_waveform : list Q := repeat (1 # 4) (Pos.to_nat 30720).

Definition track_onset : list Q :=
  repeat (1 # 10) 20 ++ [1; 2; 5; 7; 9; 9; 7; 5; 2; 1] ++ repeat (1 # 10) 31.

Definition track_world : World :=
  mkWorld
    (fun _ => Ok (track_waveform, 1024%positive))
    (fun _ _ => Ok (TempoScalar 90, [4; 8; 12]%nat))
    (fun _ _ => Ok track_onset)
    (fun _ => "Traceback (most recent call last):"%string).

Definition track_argv : list string := [script_name; "track.wav"%string].

Definition track_highlight : Highlight :=
  Eval vm_compute in
    match analysis track_world "track.wav" with
    | Ok h => h
    | Raise _ => mkHighlight 0 0 0 0
    end.

(** The same track with silence for an onset curve. *)
Definition silent_world : World :=
  mkWorld (librosa_load track_world) (beat_track track_world)
    (fun _ _ => Ok (repeat 0 61)) (format_exc track_world).

(** ** Discipline of the log handle *)

Inductive log_state : Type :=
| LogUnopened
| LogReady
| LogDirty
| LogClosed.

(** A run uses the log handle correctly: it is opened once, before anything
    else is done with it; every write is followed at once by its flush;
    nothing is written or flushed after the close, and it is closed at most
    once; the exit, if any, is the last event. *)
Fixpoint log_discipline (st : log_state) (tr : list event) : bool :=
  match tr with
  | [] => match st with LogDirty => false | _ => true end
  | LogOpen :: tr' =>
      match st with LogUnopened => log_discipline LogReady tr' | _ => false end
  | LogWrite _ :: tr' =>
      match st with LogReady => log_discipline LogDirty tr' | _ => false end
  | LogFlush :: tr' =>
      match st with LogDirty => log_discipline LogReady tr' | _ => false end
  | LogClose :: tr' =>
      match st with LogReady => log_discipline LogClosed tr' | _ => false end
  | Exit _ :: tr' =>
      match st, tr' with
      | LogReady, [] | LogClosed, [] => true
      | _, _ => false
      end
  | _ :: tr' =>
      match st with LogDirty => false | _ => log_discipline st tr' end
  end.

(** Traces made of [log_debug] calls and loads of [audio_path] only. *)
Fixpoint paired (audio_path : string) (tr : list event) : bool :=
  match tr with
  | [] => true
  | LogWrite _ :: LogFlush :: tr' => paired audio_path tr'
  | LoadAudio p :: tr' => String.eqb p audio_path && paired audio_path tr'
  | _ => false
  end.

Fixpoint log_lines (tr : list event) : list log_msg :=
  match tr with
  | [] => []
  | LogWrite m :: tr' => m :: log_lines tr'
  | _ :: tr' => log_lines tr'
  end.

Definition printable (c : ascii) : bool :=
  ((32 <=? nat_of_ascii c) && (nat_of_ascii c <=? 126))%nat.

Fixpoint all_printable (s : string) : bool :=
  match s with
  | EmptyString => true
  | String c s' => printable c && all_printable s'
  end.

(** ** [to_json_serializable] (lines 19-24) *)

Local Unset Elimination Schemes.



Local Set Elimination Schemes.




(** * convert_model.py: conversion of a language model to Core ML

    The script only calls into [transformers], [torch] and [coremltools];
    those calls are fields of a [Torch] record, over types of models,
    tokenizers and tensors that the script never looks into.  What it does
    itself is the order of the calls, the metadata it writes on the converted
    model, its four printed lines and the check of its argument count. *)

Module ConvertModel.

(** The fields of a converted model that the script assigns. *)
Record MLModel : Type := mkMLModel {
  author : string;
  license : string;
  short_description : string;
  version : string;
  user_defined_metadata : list (string * string)
}.

(** [d[k] = v] on a dictionary with string keys, kept in insertion order. *)
Fixpoint dict_set (k v : string) (d : list (string * string)) : list (string * string) :=
  match d with
  | [] => [(k, v)]
  | (k', v') :: d' =>
      if String.eqb k' k then (k', v) :: d' else (k', v') :: dict_set k v d'
  end.


Record Torch : Type := mkTorch {
  Model : Type;
  Tokenizer : Type;
  Tensor : Type;
  Traced : Type;
  (** [AutoModelForCausalLM.from_pretrained(model_id, torch_dtype=torch.float16)] *)
  model_from_pretrained : string -> pyresult Model;
  (** [AutoTokenizer.from_pretrained(model_id)] *)
  tokenizer_from_pretrained : string -> pyresult Tokenizer;
  (** [tokenizer(text, return_tensors="pt")["input_ids"]] *)
  input_ids_of : Tokenizer -> string -> pyresult Tensor;
  (** [torch.jit.trace(model, (input_ids,))] *)
  jit_trace : Model -> Tensor -> pyresult Traced;
  (** [ct.convert(traced_model, ...)] *)
  ct_convert : Traced -> pyresult MLModel;
  (** [str(tokenizer.get_vocab())] *)
  vocab_str : Tokenizer -> pyresult string;
  (** [mlmodel.save(output_path)] *)
  save : MLModel -> string -> pyresult unit
}.

Inductive event : Type :=
| Printed (line : string)
| LoadModel (model_id : string)
| LoadTokenizer (model_id : string)
| SaveCall (output_path : string) (mlmodel : MLModel)
| Traceback (e : exn)
| Exited (code : Z).

Definition C (A : Type) : Type := (list event * pyresult A)%type.

Definition cbind {A B} (m : C A) (f : A -> C B) : C B :=
  match m with
  | (tr, Ok a) => let '(tr', r) := f a in (tr ++ tr', r)
  | (tr, Raise e) => (tr, Raise e)
  end.

Definition cemit (evs : list event) : C unit := (evs, Ok tt).

Definition clift {A} (r : pyresult A) : C A := ([], r).

Declare Scope conv_scope.

Delimit Scope conv_scope with conv.

Notation "x <- m ;; k" := (cbind m (fun x => k))
  (at level 61, m at next level, right associativity) : conv_scope.

Notation "m ;; k" := (cbind m (fun _ => k))
  (at level 61, right associativity) : conv_scope.

Definition model_id : string := "microsoft/phi-2".

Definition example_text : string :=
  "You are a video editing assistant. Help me edit this video.".

(** Lines 43-50: the six assignments on the converted model. *)
Definition add_metadata (mlmodel : MLModel) (vocab : string) : MLModel :=
  mkMLModel
    "Microsoft (original) / CoolVideoEditor (converted)"
    "MIT"
    "Phi-2 language model optimized for video editing assistance"
    "1.0.0"
    (dict_set "tokenizer_type" "microsoft/phi-2"
       (dict_set "tokenizer_vocab" vocab (user_defined_metadata mlmodel))).

Definition convert_phi2_to_coreml (T : Torch) (output_path : string) : C unit :=
  (cemit [Printed "Loading Phi-2 model..."] ;;
   cemit [LoadModel model_id] ;;
   model <- clift (model_from_pretrained T model_id) ;;
   cemit [LoadTokenizer model_id] ;;
   tokenizer <- clift (tokenizer_from_pretrained T model_id) ;;
   cemit [Printed "Converting to CoreML format..."] ;;
   input_ids <- clift (input_ids_of T tokenizer example_text) ;;
   traced_model <- clift (jit_trace T model input_ids) ;;
   mlmodel <- clift (ct_convert T traced_model) ;;
   vocab <- clift (vocab_str T tokenizer) ;;
   let mlmodel := add_metadata mlmodel vocab in
   cemit [Printed ("Saving model to " ++ output_path ++ "...")] ;;
   cemit [SaveCall output_path mlmodel] ;;
   clift (save T mlmodel output_path) ;;
   cemit [Printed "Conversion complete!"])%conv.

(** Lines 56-61.  An exception nothing catches ends the process with a
    traceback and exit code 1. *)
Definition main (T : Torch) (argv : list string) : list event :=
  if negb (length argv =? 2)%nat then
    [Printed "Usage: convert_model.py <output_path>"; Exited 1]
  else
    match convert_phi2_to_coreml T (nth 1 argv EmptyString) with
    | (tr, Ok _) => tr ++ [Exited 0]
    | (tr, Raise e) => tr ++ [Traceback e; Exited 1]
    end.

Fixpoint printed (tr : list event) : list string :=
  match tr with
  | [] => []
  | Printed line :: tr' => line :: printed tr'
  | _ :: tr' => printed tr'
  end.

Fixpoint save_calls (tr : list event) : list (string * MLModel) :=
  match tr with
  | [] => []
  | SaveCall p m :: tr' => (p, m) :: save_calls tr'
  | _ :: tr' => save_calls tr'
  end.

Fixpoint exit_code (tr : list event) : option Z :=
  match tr with
  | [] => None
  | Exited code :: _ => Some code
  | _ :: tr' => exit_code tr'
  end.

(** A world in which every call returns. *)
Definition ideal : Torch :=
  mkTorch unit unit unit unit
    (fun _ => Ok tt) (fun _ => Ok tt) (fun _ _ => Ok tt) (fun _ _ => Ok tt)
    (fun _ => Ok (mkMLModel EmptyString EmptyString EmptyString EmptyString
                    [("com.github.apple.coremltools.version"%string, "7.1"%string)]))
    (fun _ => Ok "{'the': 1169}"%string)
    (fun _ _ => Ok tt).

End ConvertModel.

(** * Properties *)

(** ** Comparisons *)

Lemma Qltb_lt (x y : Q) : Qltb x y = true <-> x < y.
Proof.
  unfold Qltb. rewrite negb_true_iff. split; intro H.
  - apply Qnot_le_lt. intro Hle. apply Qle_bool_iff in Hle. congruence.
  - destruct (Qle_bool y x) eqn:E; [|reflexivity].
    apply Qle_bool_iff in E. exfalso. apply (Qlt_not_le _ _ H E).
Qed.

Lemma Qltb_ge (x y : Q) : Qltb x y = false <-> y <= x.
Proof.
  unfold Qltb. rewrite negb_false_iff. apply Qle_bool_iff.
Qed.

Lemma Qgtb_gt (x y : Q) : Qgtb x y = true <-> y < x.
Proof. apply Qltb_lt. Qed.

Lemma Qgtb_le (x y : Q) : Qgtb x y = false <-> x <= y.
Proof. apply Qltb_ge. Qed.

Ltac case_cmp :=
  match goal with
  | |- context [Qgtb ?x ?y] =>
      let E := fresh "E" in
      destruct (Qgtb x y) eqn:E;
      [apply Qgtb_gt in E | apply Qgtb_le in E]
  | |- context [Qltb ?x ?y] =>
      let E := fresh "E" in
      destruct (Qltb x y) eqn:E;
      [apply Qltb_lt in E | apply Qltb_ge in E]
  end.



(** ** Boundary policy *)

Lemma clamp_start_nonneg (s d : Q) : 0 <= s -> 0 <= clamp_start s d.
Proof.
  intro Hs. unfold clamp_start, py_max. repeat case_cmp; lra.
Qed.

Lemma highlight_duration_cap (s d : Q) : highlight_duration s d <= 20.
Proof.
  unfold highlight_duration, py_min. case_cmp; lra.
Qed.

Lemma highlight_duration_fits (s d : Q) :
  clamp_start s d + highlight_duration (clamp_start s d) d <= d.
Proof.
  unfold highlight_duration, clamp_start, py_min, py_max.
  repeat case_cmp; lra.
Qed.

Lemma highlight_duration_pos (s d : Q) :
  0 < d -> 0 < highlight_duration (clamp_start s d) d.
Proof.
  intro Hd. unfold highlight_duration, clamp_start, py_min, py_max.
  repeat case_cmp; lra.
Qed.



(** ** Window size *)

Lemma window_size_floor (sr : positive) :
  (hop_length * window_size sr <= 5 * Z.pos sr < hop_length * (window_size sr + 1))%Z.
Proof.
  unfold window_size, hop_length.
  rewrite Z.quot_div_nonneg by lia.
  pose proof (Z.div_mod (5 * Z.pos sr) 512 ltac:(lia)).
  pose proof (Z.mod_pos_bound (5 * Z.pos sr) 512 ltac:(lia)).
  lia.
Qed.

(** C3, as the code has it.  The window size is [int(5 * sr / 512)]: the
    quotient with its fractional part dropped, not rounded to the nearest
    integer and not raised to 1.  It is the largest [w] with
    [512 * w <= 5 * sr]; it is 0 for sample rates up to 102 and at least 1
    from 103 on; at librosa's default rate 22050 it is 215. *)
Theorem C3_window_size_truncates (sr : positive) :
  (hop_length * window_size sr <= 5 * Z.pos sr < hop_length * (window_size sr + 1))%Z /\
  inject_Z (window_size sr) <= 5 * inject_Z (Z.pos sr) / inject_Z hop_length /\
  5 * inject_Z (Z.pos sr) / inject_Z hop_length < inject_Z (window_size sr) + 1 /\
  (0 <= window_size sr)%Z /\
  ((1 <= window_size sr)%Z <-> (103 <= sr)%positive) /\
  window_size 22050 = 215%Z.
Proof.
  pose proof (window_size_floor sr) as [Hlo Hhi].
  unfold hop_length in *.
  assert (Hq : 5 * inject_Z (Z.pos sr) / inject_Z 512 == (5 * Z.pos sr # 512)).
  { unfold Qdiv, Qmult, Qinv, inject_Z, Qeq; simpl. lia. }
  repeat split.
  - exact Hlo.
  - exact Hhi.
  - rewrite Hq. unfold Qle, inject_Z; simpl. lia.
  - rewrite Hq. unfold Qlt, Qplus, inject_Z; simpl. lia.
  - lia.
  - intro H. apply Pos2Z.pos_le_pos. lia.
  - intro H. apply Pos2Z.pos_le_pos in H. lia.
Qed.

(** C3, counterexample.  At 44100 Hz the code's window is 430 frames where
    rounding gives 431, and at 100 Hz it is 0 frames where the stated
    minimum is 1. *)
Lemma C3_window_size_counterexample :
  (window_size 44100 = 430%Z /\
   py_round (5 * inject_Z 44100 / inject_Z hop_length) = 431%Z /\
   spec_window_size 44100 = 431%Z) /\
  (window_size 100 = 0%Z /\ spec_window_size 100 = 1%Z) /\
  ~ (forall sr : positive,
       window_size sr = py_round (5 * inject_Z (Z.pos sr) / inject_Z hop_length) /\
       (1 <= window_size sr)%Z).
Proof.
  repeat split; try reflexivity.
  intro H. destruct (H 100%positive) as [_ H1].
  vm_compute in H1. apply H1. reflexivity.
Qed.

(** ** The script against its values *)

Lemma try_block_refines (W : World) (audio_path : string) :
  exists tr0, forallb quiet tr0 = true /\
    match analysis W audio_path with
    | Ok h => try_block W audio_path
              = (tr0 ++ [Print (highlight_json h); LogClose], Ok tt)
    | Raise e => try_block W audio_path = (tr0, Raise e)
    end.
Proof.
  unfold try_block, analysis, rhythm, selection, select_window, log_debug, emit, lift,
    bind, rbind.
  cbn [app].
  destruct (librosa_load W audio_path) as [[y sr]|e]; [|eexists; split; [|reflexivity]; reflexivity].
  cbn [app].
  destruct (beat_track W y sr) as [[tempo beats]|e]; [|eexists; split; [|reflexivity]; reflexivity].
  destruct (float_of_tempo tempo) as [t|e]; [|eexists; split; [|reflexivity]; reflexivity].
  cbn [app].
  destruct (onset_strength W y sr) as [env|e]; [|eexists; split; [|reflexivity]; reflexivity].
  destruct (np_ones (window_size sr)) as [ones|e]; [|eexists; split; [|reflexivity]; reflexivity].
  destruct (np_convolve_valid env ones) as [curve|e]; [|eexists; split; [|reflexivity]; reflexivity].
  destruct (np_argmax curve) as [idx|e]; [|eexists; split; [|reflexivity]; reflexivity].
  destruct (py_div (nth idx curve 0) (np_mean curve)) as [ratio|e];
    [|eexists; split; [|reflexivity]; reflexivity].
  unfold clamp_start, highlight_duration, ret.
  destruct (Qgtb (frames_to_time idx sr) (get_duration y sr - 20)); cbn [app].
  - eexists (_ :: _ :: _ :: _ :: _ :: _ :: _ :: _ :: _ :: _ :: _ :: _ :: _ :: _ :: [_]).
    split; [|reflexivity]. reflexivity.
  - eexists (_ :: _ :: _ :: _ :: _ :: _ :: _ :: _ :: _ :: _ :: _ :: _ :: [_]).
    split; [|reflexivity]. reflexivity.
Qed.

(** ** Runs of the script *)

Lemma stdout_quiet (tr0 rest : list event) :
  forallb quiet tr0 = true -> stdout (tr0 ++ rest) = stdout rest.
Proof.
  induction tr0 as [|ev tr0 IH]; simpl; [reflexivity|].
  intro H. apply andb_true_iff in H as [Hq Hr].
  destruct ev; simpl in *; try discriminate; auto.
Qed.

Lemma exit_code_quiet (tr0 rest : list event) :
  forallb quiet tr0 = true -> exit_code (tr0 ++ rest) = exit_code rest.
Proof.
  induction tr0 as [|ev tr0 IH]; simpl; [reflexivity|].
  intro H. apply andb_true_iff in H as [Hq Hr].
  destruct ev; simpl in *; try discriminate; auto.
Qed.

Lemma closed_at_exit_quiet (is_open : bool) (tr0 rest : list event) :
  forallb quiet tr0 = true ->
  closed_at_exit is_open (tr0 ++ rest) = closed_at_exit is_open rest.
Proof.
  induction tr0 as [|ev tr0 IH]; simpl; [reflexivity|].
  intro H. apply andb_true_iff in H as [Hq Hr].
  destruct ev; simpl in *; try discriminate; auto.
Qed.

Lemma main_no_path (W : World) (argv : list string) :
  (length argv < 2)%nat ->
  main W argv = [LogOpen; Print (error_json "No audio file provided"); Exit 1].
Proof.
  intro H. unfold main. apply Nat.ltb_lt in H. now rewrite H.
Qed.

Lemma main_with_path (W : World) (argv : list string) :
  (2 <= length argv)%nat ->
  exists tr0, forallb quiet tr0 = true /\
    main W argv =
      LogOpen :: tr0 ++
        match analysis W (nth 1 argv EmptyString) with
        | Ok h => [Print (highlight_json h); LogClose; Exit 0]
        | Raise e => [Print (error_json (error_message W e)); LogClose; Exit 1]
        end.
Proof.
  intro H. unfold main.
  assert (Hlt : (length argv <? 2)%nat = false) by (apply Nat.ltb_ge; exact H).
  rewrite Hlt.
  destruct (try_block_refines W (nth 1 argv EmptyString)) as (tr0 & Hq & Hrun).
  exists tr0. split; [exact Hq|].
  destruct (analysis W (nth 1 argv EmptyString)) as [h|e]; rewrite Hrun.
  - now rewrite <- app_assoc.
  - reflexivity.
Qed.

Lemma highlight_json_inj (h h' : Highlight) :
  highlight_json h = highlight_json h' -> h = h'.
Proof.
  destruct h, h'. unfold highlight_json; simpl. intro H.
  injection H as -> -> -> ->. reflexivity.
Qed.

Lemma succeeds_iff (W : World) (argv : list string) (h : Highlight) :
  succeeds_with (main W argv) h <->
  (2 <= length argv)%nat /\ analysis W (nth 1 argv EmptyString) = Ok h.
Proof.
  unfold succeeds_with. split.
  - intros [Hout Hexit].
    destruct (Nat.lt_ge_cases (length argv) 2) as [Hlt|Hge].
    + rewrite (main_no_path W argv Hlt) in Hout. discriminate Hout.
    + split; [exact Hge|].
      destruct (main_with_path W argv Hge) as (tr0 & Hq & Hmain).
      rewrite Hmain in Hout. simpl in Hout. rewrite (stdout_quiet _ _ Hq) in Hout.
      destruct (analysis W (nth 1 argv EmptyString)) as [h'|e]; simpl in Hout.
      * apply (f_equal (hd [])) in Hout. simpl in Hout.
        apply highlight_json_inj in Hout. now subst.
      * discriminate Hout.
  - intros [Hge Han].
    destruct (main_with_path W argv Hge) as (tr0 & Hq & Hmain).
    rewrite Hmain, Han. simpl.
    rewrite (stdout_quiet _ _ Hq), (exit_code_quiet _ _ Hq). split; reflexivity.
Qed.

Lemma fails_iff (W : World) (argv : list string) (msg : string) :
  fails_with (main W argv) msg <->
  ((length argv < 2)%nat /\ msg = "No audio file provided"%string) \/
  ((2 <= length argv)%nat /\
   exists e, analysis W (nth 1 argv EmptyString) = Raise e /\ msg = error_message W e).
Proof.
  unfold fails_with. split.
  - intros [Hout Hexit].
    destruct (Nat.lt_ge_cases (length argv) 2) as [Hlt|Hge].
    + left. split; [exact Hlt|].
      rewrite (main_no_path W argv Hlt) in Hout. simpl in Hout.
      unfold error_json in Hout. injection Hout as Hout. now subst.
    + right. split; [exact Hge|].
      destruct (main_with_path W argv Hge) as (tr0 & Hq & Hmain).
      rewrite Hmain in Hout. simpl in Hout. rewrite (stdout_quiet _ _ Hq) in Hout.
      destruct (analysis W (nth 1 argv EmptyString)) as [h'|e]; simpl in Hout.
      * discriminate Hout.
      * exists e. split; [reflexivity|].
        unfold error_json in Hout. injection Hout as Hout. now subst.
  - intros [[Hlt ->]|[Hge (e & Han & ->)]].
    + rewrite (main_no_path W argv Hlt). split; reflexivity.
    + destruct (main_with_path W argv Hge) as (tr0 & Hq & Hmain).
      rewrite Hmain, Han. simpl.
      rewrite (stdout_quiet _ _ Hq), (exit_code_quiet _ _ Hq). split; reflexivity.
Qed.

(** Every run either succeeds with a Highlight Result or fails with an
    Error Result, never both. *)
Lemma main_outcome (W : World) (argv : list string) :
  (exists h, succeeds_with (main W argv) h) \/
  (exists msg, fails_with (main W argv) msg).
Proof.
  destruct (Nat.lt_ge_cases (length argv) 2) as [Hlt|Hge].
  - right. eexists. apply fails_iff. left. split; [exact Hlt|reflexivity].
  - destruct (analysis W (nth 1 argv EmptyString)) as [h|e] eqn:Han.
    + left. exists h. apply succeeds_iff. split; assumption.
    + right. eexists. apply fails_iff. right. split; [exact Hge|].
      exists e. split; [exact Han|reflexivity].
Qed.

Lemma fails_not_succeeds (tr : list event) (msg : string) (h : Highlight) :
  fails_with tr msg -> ~ succeeds_with tr h.
Proof.
  intros [Hout _] [Hout' _]. rewrite Hout in Hout'. discriminate Hout'.
Qed.

(** C7. With no path argument ([sys.argv] shorter than 2) the run is: open
    the log, print the dictionary [{"error": "No audio file provided"}],
    exit with code 1.  The printed line is exactly that text, and
    [librosa.load] is never called. *)
Theorem C7_missing_argument (W : World) (float_repr : Q -> string)
    (argv : list string) :
  (length argv < 2)%nat ->
  main W argv = [LogOpen; Print (error_json "No audio file provided"); Exit 1] /\
  map (json_dumps float_repr) (stdout (main W argv)) = [no_audio_line] /\
  exit_code (main W argv) = Some 1%Z /\
  loads (main W argv) = [] /\
  fails_with (main W argv) "No audio file provided".
Proof.
  intro H. rewrite (main_no_path W argv H). repeat split; reflexivity.
Qed.

Lemma C7_missing_argument_witness :
  map (json_dumps (fun _ => EmptyString)) (stdout (main clip_world [script_name]))
    = [no_audio_line] /\
  exit_code (main clip_world [script_name]) = Some 1%Z /\
  loads (main clip_world [script_name]) = [].
Proof.
  destruct (C7_missing_argument clip_world (fun _ => EmptyString) [script_name])
    as (_ & Hout & Hexit & Hloads & _).
  - simpl; lia.
  - repeat split; assumption.
Defined.

(** C8, the path that breaks it.  Started without a path argument the
    script opens the log (line 13), prints and calls [sys.exit(1)] (lines
    27-28): no [debug_log.close()] is executed before the exit. *)
Theorem C8_missing_argument_leaves_log_open (W : World) :
  main W ["extract_highlight.py"%string]
    = [LogOpen; Print (error_json "No audio file provided"); Exit 1] /\
  closed_at_exit false (main W ["extract_highlight.py"%string]) = false /\
  ~ In LogClose (main W ["extract_highlight.py"%string]).
Proof.
  repeat split.
  intros [H|[H|[H|[]]]]; discriminate H.
Qed.

(** On the two paths through the [try] the log is closed before the exit. *)
Lemma log_closed_with_path (W : World) (argv : list string) :
  (2 <= length argv)%nat -> closed_at_exit false (main W argv) = true.
Proof.
  intro Hge. destruct (main_with_path W argv Hge) as (tr0 & Hq & Hmain).
  rewrite Hmain. simpl. rewrite (closed_at_exit_quiet _ _ _ Hq).
  destruct (analysis W (nth 1 argv EmptyString)); reflexivity.
Qed.

(** ** [np.argmax] *)

Lemma argmax_scan_spec (xs pre : list Q) (b : nat) (best : Q) :
  (b < length pre)%nat ->
  best = nth b pre 0 ->
  (forall j, (j < length pre)%nat -> nth j pre 0 <= best) ->
  (forall j, (j < b)%nat -> nth j pre 0 < best) ->
  let r := argmax_scan b best (length pre) xs in
  (r < length (pre ++ xs))%nat /\
  (forall j, (j < length (pre ++ xs))%nat ->
     nth j (pre ++ xs) 0 <= nth r (pre ++ xs) 0) /\
  (forall j, (j < r)%nat -> nth j (pre ++ xs) 0 < nth r (pre ++ xs) 0).
Proof.
  revert pre b best.
  induction xs as [|x xs IH]; intros pre b best Hb Hbest Hmax Hfirst; simpl.
  - rewrite app_nil_r. subst best. auto.
  - assert (Hlen : length (pre ++ [x]) = S (length pre))
      by (rewrite length_app; simpl; lia).
    assert (Hx : nth (length pre) (pre ++ [x]) 0 = x)
      by (rewrite app_nth2 by lia; now rewrite Nat.sub_diag).
    assert (Hold : forall j, (j < length pre)%nat ->
                             nth j (pre ++ [x]) 0 = nth j pre 0)
      by (intros j Hj; now rewrite app_nth1 by exact Hj).
    replace (pre ++ x :: xs) with ((pre ++ [x]) ++ xs)
      by (now rewrite <- app_assoc).
    rewrite <- Hlen.
    destruct (Qgtb x best) eqn:E.
    + apply Qgtb_gt in E.
      apply IH.
      * lia.
      * now rewrite Hx.
      * intros j Hj. rewrite Hlen in Hj.
        destruct (Nat.eq_dec j (length pre)) as [->|Hne].
        -- rewrite Hx. apply Qle_refl.
        -- rewrite Hold by lia. apply Qlt_le_weak.
           apply Qle_lt_trans with best; [apply Hmax; lia|exact E].
      * intros j Hj. rewrite Hold by lia.
        apply Qle_lt_trans with best; [apply Hmax; lia|exact E].
    + apply Qgtb_le in E.
      apply IH.
      * lia.
      * rewrite Hold by exact Hb. exact Hbest.
      * intros j Hj. rewrite Hlen in Hj.
        destruct (Nat.eq_dec j (length pre)) as [->|Hne].
        -- rewrite Hx. exact E.
        -- rewrite Hold by lia. apply Hmax. lia.
      * intros j Hj. rewrite Hold by lia. apply Hfirst. exact Hj.
Qed.

Lemma np_argmax_spec (curve : list Q) (idx : nat) :
  np_argmax curve = Ok idx ->
  (idx < length curve)%nat /\
  (forall j, (j < length curve)%nat -> nth j curve 0 <= nth idx curve 0) /\
  (forall j, (j < idx)%nat -> nth j curve 0 < nth idx curve 0).
Proof.
  destruct curve as [|x xs]; simpl; [discriminate|].
  intro H. injection H as <-.
  apply (argmax_scan_spec xs [x] 0 x).
  - simpl. lia.
  - reflexivity.
  - intros j Hj. simpl in Hj. assert (j = 0)%nat as -> by lia. apply Qle_refl.
  - intros j Hj. lia.
Qed.

Lemma np_argmax_total (curve : list Q) :
  curve <> [] -> exists idx, np_argmax curve = Ok idx.
Proof.
  destruct curve as [|x xs]; [congruence|]. intros _. eexists. reflexivity.
Qed.



(** ** Sums and sliding inner products *)




Lemma inject_length_cons {A} (x : A) (xs : list A) :
  inject_Z (Z.of_nat (length (x :: xs))) == inject_Z (Z.of_nat (length xs)) + 1.
Proof.
  simpl length. rewrite Nat2Z.inj_succ. unfold Z.succ.
  rewrite inject_Z_plus. reflexivity.
Qed.


Lemma Qsum_const (c : Q) (xs : list Q) :
  Forall (fun x => x == c) xs ->
  Qsum xs == inject_Z (Z.of_nat (length xs)) * c.
Proof.
  induction 1 as [|x xs Hx _ IH].
  - simpl. unfold inject_Z. lra.
  - rewrite inject_length_cons. simpl Qsum. rewrite IH, Hx. lra.
Qed.

Lemma inject_length_pos {A} (xs : list A) :
  xs <> [] -> 0 < inject_Z (Z.of_nat (length xs)).
Proof.
  destruct xs as [|x xs]; [congruence|]. intros _.
  unfold Qlt, inject_Z; simpl. lia.
Qed.



Lemma dot_ones_r (a : list Q) (w : nat) :
  dot a (repeat 1 w) == Qsum (firstn w a).
Proof.
  revert w. induction a as [|x a IH]; intro w.
  - destruct w; reflexivity.
  - destruct w as [|w]; simpl; [reflexivity|]. rewrite IH. lra.
Qed.

Lemma correlate_from_length (count : nat) (a v : list Q) :
  length (correlate_from count a v) = count.
Proof.
  revert a. induction count as [|c IH]; intro a; simpl; [reflexivity|].
  now rewrite IH.
Qed.

Lemma correlate_from_nth (count : nat) (a v : list Q) (i : nat) :
  (i < count)%nat -> nth i (correlate_from count a v) 0 = dot (skipn i a) v.
Proof.
  revert a i. induction count as [|c IH]; intros a i Hi; [lia|].
  destruct i as [|i]; simpl; [reflexivity|].
  rewrite IH by lia. destruct a as [|x a]; simpl; [|reflexivity].
  now rewrite skipn_nil.
Qed.



(** ** [np.convolve] in [valid] mode *)

Lemma np_convolve_valid_ok (a v out : list Q) :
  np_convolve_valid a v = Ok out ->
  a <> [] /\ v <> [] /\
  out = if (length a <? length v)%nat then correlate_valid v (rev a)
        else correlate_valid a (rev v).
Proof.
  unfold np_convolve_valid.
  destruct (length a <? length v)%nat;
    destruct a as [|x a]; destruct v as [|y v]; cbv beta iota;
    try discriminate; intro H; injection H as <-;
    repeat split; discriminate.
Qed.

Lemma np_convolve_valid_length (a v out : list Q) :
  np_convolve_valid a v = Ok out ->
  length out = (Nat.max (length a) (length v) - Nat.min (length a) (length v) + 1)%nat.
Proof.
  intro H. apply np_convolve_valid_ok in H as (_ & _ & ->).
  destruct (length a <? length v)%nat eqn:E;
    [apply Nat.ltb_lt in E | apply Nat.ltb_ge in E];
    unfold correlate_valid; rewrite correlate_from_length, length_rev; lia.
Qed.

Lemma np_convolve_valid_nonempty (a v out : list Q) :
  np_convolve_valid a v = Ok out -> out <> [].
Proof.
  intros H ->. apply np_convolve_valid_length in H. simpl in H. lia.
Qed.


Lemma np_convolve_valid_intro (a v : list Q) :
  a <> [] -> v <> [] ->
  np_convolve_valid a v =
    Ok (if (length a <? length v)%nat then correlate_valid v (rev a)
        else correlate_valid a (rev v)).
Proof.
  intros Ha Hv. unfold np_convolve_valid.
  destruct (length a <? length v)%nat;
    destruct a as [|x a]; destruct v as [|y v]; try congruence; reflexivity.
Qed.

Lemma repeat_nonempty {A} (x : A) (n : nat) : (1 <= n)%nat -> repeat x n <> [].
Proof. destruct n; [lia|discriminate]. Qed.

Lemma length_nonempty {A} (xs : list A) : (1 <= length xs)%nat -> xs <> [].
Proof. destruct xs; simpl; [lia|discriminate]. Qed.

(** The usual case: the onset curve is at least as long as the window, and
    entry [k] of the Window Energy Curve sums the [w] frames from [k] on. *)
Lemma window_energy_sliding_sum (onset_env : list Q) (w : nat) :
  (1 <= w <= length onset_env)%nat ->
  exists curve,
    np_convolve_valid onset_env (repeat 1 w) = Ok curve /\
    length curve = (length onset_env - w + 1)%nat /\
    forall k, (k < length curve)%nat ->
      nth k curve 0 == Qsum (firstn w (skipn k onset_env)).
Proof.
  intros [Hw Hn].
  rewrite np_convolve_valid_intro
    by first [apply repeat_nonempty; lia | apply length_nonempty; lia].
  rewrite repeat_length.
  assert (E : (length onset_env <? w)%nat = false) by (apply Nat.ltb_ge; exact Hn).
  rewrite E, rev_repeat.
  eexists. split; [reflexivity|].
  unfold correlate_valid. rewrite correlate_from_length, repeat_length.
  split; [reflexivity|]. intros k Hk.
  rewrite correlate_from_nth by exact Hk. apply dot_ones_r.
Qed.


(** ** What a successful analysis went through *)

Lemma window_size_nonneg (sr : positive) : (0 <= window_size sr)%Z.
Proof. pose proof (window_size_floor sr). unfold hop_length in *. lia. Qed.

Lemma np_ones_window (sr : positive) :
  np_ones (window_size sr) = Ok (repeat 1 (Z.to_nat (window_size sr))).
Proof.
  unfold np_ones. pose proof (window_size_nonneg sr) as H.
  apply Z.ltb_ge in H. now rewrite H.
Qed.

Lemma py_div_ok (x y r : Q) :
  py_div x y = Ok r <-> ~ y == 0 /\ r = x / y.
Proof.
  unfold py_div. destruct (Qeq_bool y 0) eqn:E.
  - apply Qeq_bool_iff in E. split; [discriminate|]. intros [H _]. contradiction.
  - apply Qeq_bool_neq in E. split.
    + intro H. injection H as <-. split; [exact E|reflexivity].
    + intros [_ ->]. reflexivity.
Qed.

Lemma py_div_zero (x y : Q) : y == 0 -> py_div x y = Raise ZeroDivisionError.
Proof.
  intro H. unfold py_div. apply Qeq_bool_iff in H. now rewrite H.
Qed.

Lemma select_window_ok (onset_env : list Q) (sr : positive) (idx : nat) (ratio : Q) :
  select_window onset_env sr = Ok (idx, ratio) <->
  exists curve,
    np_convolve_valid onset_env (repeat 1 (Z.to_nat (window_size sr))) = Ok curve /\
    np_argmax curve = Ok idx /\
    ~ np_mean curve == 0 /\
    ratio = nth idx curve 0 / np_mean curve.
Proof.
  unfold select_window. rewrite np_ones_window. unfold rbind. split.
  - destruct (np_convolve_valid _ _) as [curve|e] eqn:Hconv; [|discriminate].
    destruct (np_argmax curve) as [i|e] eqn:Harg; [|discriminate].
    destruct (py_div _ _) as [r|e] eqn:Hdiv; [|discriminate].
    intro H. injection H as -> ->.
    apply py_div_ok in Hdiv as [Hne ->].
    exists curve. repeat split; assumption.
  - intros (curve & -> & -> & Hne & ->).
    assert (Hdiv : py_div (nth idx curve 0) (np_mean curve)
                   = Ok (nth idx curve 0 / np_mean curve))
      by (apply py_div_ok; split; [exact Hne|reflexivity]).
    now rewrite Hdiv.
Qed.

Lemma analysis_ok (W : World) (audio_path : string) (h : Highlight) :
  analysis W audio_path = Ok h <->
  exists y sr t onset_env peak_idx ratio,
    librosa_load W audio_path = Ok (y, sr) /\
    rhythm W y sr = Ok t /\
    onset_strength W y sr = Ok onset_env /\
    select_window onset_env sr = Ok (peak_idx, ratio) /\
    h = mkHighlight
          (clamp_start (frames_to_time peak_idx sr) (get_duration y sr))
          (highlight_duration
             (clamp_start (frames_to_time peak_idx sr) (get_duration y sr))
             (get_duration y sr))
          ratio ratio.
Proof.
  unfold analysis, selection, rbind. split.
  - destruct (librosa_load W audio_path) as [[y sr]|e]; [|discriminate].
    destruct (rhythm W y sr) as [t|e] eqn:Hr; [|discriminate].
    destruct (onset_strength W y sr) as [env|e] eqn:Ho; [|discriminate].
    destruct (select_window env sr) as [[idx ratio]|e] eqn:Hs; [|discriminate].
    intro H. injection H as <-.
    exists y, sr, t, env, idx, ratio. repeat split; assumption.
  - intros (y & sr & t & env & idx & ratio & -> & -> & -> & -> & ->).
    reflexivity.
Qed.

Lemma frames_to_time_nonneg (frame : nat) (sr : positive) :
  0 <= frames_to_time frame sr.
Proof. unfold frames_to_time, hop_length, Qle; simpl. lia. Qed.

Lemma get_duration_pos (y : list Q) (sr : positive) :
  y <> [] -> 0 < get_duration y sr.
Proof.
  destruct y as [|x y]; [congruence|]. intros _.
  unfold get_duration, Qlt; simpl. lia.
Qed.

(** C1. A successful run on a loaded waveform of at least one sample prints
    a start that is not negative and a duration that is positive, at most 20
    seconds, and ends no later than the track; the bounds hold exactly, so
    with any tolerance [eps >= 0]. *)
Theorem C1_result_bounds (W : World) (argv : list string) (h : Highlight)
    (y : list Q) (sr : positive) (eps : Q) :
  succeeds_with (main W argv) h ->
  librosa_load W (nth 1 argv EmptyString) = Ok (y, sr) ->
  y <> [] ->
  0 <= eps ->
  0 <= start h /\
  0 < duration h /\
  start h + duration h <= get_duration y sr + eps /\
  duration h <= 20 + eps.
Proof.
  intros Hrun Hload Hy Heps.
  apply succeeds_iff in Hrun as [_ Han].
  apply analysis_ok in Han
    as (y' & sr' & t & env & idx & ratio & Hload' & _ & _ & _ & ->).
  rewrite Hload in Hload'. injection Hload' as <- <-.
  simpl.
  pose proof (frames_to_time_nonneg idx sr) as Hs.
  pose proof (get_duration_pos y sr Hy) as Hd.
  pose proof (clamp_start_nonneg _ (get_duration y sr) Hs).
  pose proof (highlight_duration_pos (frames_to_time idx sr) _ Hd).
  pose proof (highlight_duration_fits (frames_to_time idx sr) (get_duration y sr)).
  pose proof (highlight_duration_cap
                (clamp_start (frames_to_time idx sr) (get_duration y sr))
                (get_duration y sr)).
  repeat split; lra.
Qed.

(** ** Peak against mean *)




Lemma np_mean_const (c : Q) (curve : list Q) :
  curve <> [] -> Forall (fun x => x == c) curve -> np_mean curve == c.
Proof.
  intros Hne Hc. unfold np_mean. rewrite (Qsum_const c curve Hc).
  rewrite Qmult_comm. apply Qdiv_mult_l.
  pose proof (inject_length_pos curve Hne). lra.
Qed.



(** ** Zero mean energy *)

Lemma select_window_zero_mean (onset_env curve : list Q) (sr : positive) :
  np_convolve_valid onset_env (repeat 1 (Z.to_nat (window_size sr))) = Ok curve ->
  np_mean curve == 0 ->
  select_window onset_env sr = Raise ZeroDivisionError.
Proof.
  intros Hconv Hzero. unfold select_window. rewrite np_ones_window.
  unfold rbind. rewrite Hconv.
  destruct (np_argmax_total curve (np_convolve_valid_nonempty _ _ _ Hconv))
    as [idx ->].
  now rewrite (py_div_zero _ _ Hzero).
Qed.

(** C4. When the waveform loaded and the mean of its Window Energy Curve is
    exactly zero, the run prints an Error Result and exits with code 1; it
    prints no Highlight Result, so no field of one can be NaN or infinite.
    If the Rhythm Analyzer returned, the error is the division by zero of
    line 64. *)
Theorem C4_zero_mean_fails (W : World) (argv : list string)
    (y onset_env curve : list Q) (sr : positive) :
  (2 <= length argv)%nat ->
  librosa_load W (nth 1 argv EmptyString) = Ok (y, sr) ->
  onset_strength W y sr = Ok onset_env ->
  np_convolve_valid onset_env (repeat 1 (Z.to_nat (window_size sr))) = Ok curve ->
  np_mean curve == 0 ->
  (exists msg, fails_with (main W argv) msg) /\
  (forall h, ~ succeeds_with (main W argv) h) /\
  (rhythm_returns (beat_track W y sr) ->
   fails_with (main W argv) (error_message W ZeroDivisionError)).
Proof.
  intros Hargv Hload Henv Hconv Hzero.
  pose proof (select_window_zero_mean _ _ _ Hconv Hzero) as Hsel.
  assert (Hrun : exists e, analysis W (nth 1 argv EmptyString) = Raise e /\
                   (rhythm_returns (beat_track W y sr) -> e = ZeroDivisionError)).
  { unfold analysis, selection, rhythm, rbind. rewrite Hload, Henv, Hsel.
    destruct (beat_track W y sr) as [[tempo beats]|e].
    - destruct (float_of_tempo tempo) as [t|e] eqn:Hcoerce.
      + eexists. split; reflexivity.
      + eexists. split; [reflexivity|].
        intros (tempo' & beats' & t' & Heq & Ht).
        injection Heq as <- <-. rewrite Ht in Hcoerce. discriminate Hcoerce.
    - eexists. split; [reflexivity|].
      intros (tempo' & beats' & t' & Heq & _). discriminate Heq. }
  destruct Hrun as (e & Han & He).
  assert (Hfail : fails_with (main W argv) (error_message W e)).
  { apply fails_iff. right. split; [exact Hargv|]. exists e. split; [exact Han|reflexivity]. }
  split; [|split].
  - eexists. exact Hfail.
  - intro h. eapply fails_not_succeeds. exact Hfail.
  - intro Hr. rewrite <- (He Hr). exact Hfail.
Qed.

(** ** Silence *)

Lemma dot_zero_l (xs ys : list Q) : Forall is_zero xs -> dot xs ys == 0.
Proof.
  intro H. revert ys. induction H as [|x xs Hx _ IH]; intros [|y ys]; simpl;
    try reflexivity.
  unfold is_zero in Hx. rewrite IH, Hx. lra.
Qed.

Lemma dot_zero_r (xs ys : list Q) : Forall is_zero ys -> dot xs ys == 0.
Proof.
  intro H. revert xs. induction H as [|y ys Hy _ IH]; intros [|x xs]; simpl;
    try reflexivity.
  unfold is_zero in Hy. rewrite IH, Hy. lra.
Qed.

Lemma correlate_from_zero (count : nat) (a v : list Q) :
  Forall is_zero a \/ Forall is_zero v ->
  Forall is_zero (correlate_from count a v).
Proof.
  revert a. induction count as [|c IH]; intros a H; simpl; constructor.
  - destruct H; [now apply dot_zero_l|now apply dot_zero_r].
  - apply IH. destruct H as [H|H]; [left|right; exact H].
    destruct H; simpl; [constructor|assumption].
Qed.

(** An all-zero onset curve gives a Window Energy Curve of mean zero. *)
Lemma silent_mean_zero (onset_env ones curve : list Q) :
  Forall is_zero onset_env ->
  np_convolve_valid onset_env ones = Ok curve ->
  np_mean curve == 0.
Proof.
  intros Hz Hconv.
  pose proof (np_convolve_valid_nonempty _ _ _ Hconv) as Hne.
  apply np_convolve_valid_ok in Hconv as (_ & _ & ->).
  apply np_mean_const; [exact Hne|].
  destruct (length onset_env <? length ones)%nat;
    apply correlate_from_zero; [right|left]; try apply Forall_rev; exact Hz.
Qed.

(** ** An onset curve shorter than the window *)




(** ** Runs on the thirty-second track *)

Lemma track_run : succeeds_with (main track_world track_argv) track_highlight.
Proof. split; vm_compute; reflexivity. Qed.

Lemma C1_result_bounds_witness :
  0 <= start track_highlight /\
  0 < duration track_highlight /\
  start track_highlight + duration track_highlight
    <= get_duration track_waveform 1024 + (1 # 1000000) /\
  duration track_highlight <= 20 + (1 # 1000000).
Proof.
  apply (C1_result_bounds track_world track_argv track_highlight
           track_waveform 1024 (1 # 1000000)).
  - split; vm_compute; reflexivity.
  - reflexivity.
  - discriminate.
  - unfold Qle; simpl; lia.
Defined.


Lemma C4_zero_mean_fails_witness :
  (exists msg, fails_with (main silent_world track_argv) msg) /\
  (forall h, ~ succeeds_with (main silent_world track_argv) h) /\
  (rhythm_returns (beat_track silent_world track_waveform 1024) ->
   fails_with (main silent_world track_argv)
     (error_message silent_world ZeroDivisionError)).
Proof.
  apply (C4_zero_mean_fails silent_world track_argv track_waveform
           (repeat 0 61) (repeat 0 52) 1024).
  - simpl; lia.
  - reflexivity.
  - reflexivity.
  - vm_compute; reflexivity.
  - vm_compute; reflexivity.
Defined.




(** ** The Rhythm Analyzer does not reach the result *)

Lemma selection_with_beat_track (W : World) bt (y : list Q) (sr : positive) :
  selection (with_beat_track W bt) y sr = selection W y sr.
Proof. reflexivity. Qed.

Lemma analysis_with_beat_track_ok (W : World) bt (audio_path : string) (h : Highlight) :
  analysis (with_beat_track W bt) audio_path = Ok h ->
  exists y sr, librosa_load W audio_path = Ok (y, sr) /\ selection W y sr = Ok h.
Proof.
  unfold analysis, rbind. simpl librosa_load.
  destruct (librosa_load W audio_path) as [[y sr]|e]; [|discriminate].
  destruct (rhythm _ y sr); [|discriminate].
  rewrite selection_with_beat_track. intro H. exists y, sr. split; [reflexivity|exact H].
Qed.

Lemma analysis_with_beat_track_returns (W : World) bt (audio_path : string) :
  (forall y sr, rhythm_returns (bt y sr)) ->
  analysis (with_beat_track W bt) audio_path =
    rbind (librosa_load W audio_path) (fun '(y, sr) => selection W y sr).
Proof.
  intro Hbt. unfold analysis, rbind. simpl librosa_load.
  destruct (librosa_load W audio_path) as [[y sr]|e]; [|reflexivity].
  destruct (Hbt y sr) as (tempo & beats & t & Heq & Ht).
  unfold rhythm, rbind. simpl beat_track. rewrite Heq, Ht.
  apply selection_with_beat_track.
Qed.

(** C9. Two runs that differ only in what the Rhythm Analyzer returns print
    the same Highlight Result whenever both print one; and when both
    analyzers return a tempo and beats, the two runs have the same standard
    output and the same exit code. *)
Theorem C9_rhythm_does_not_influence (W : World)
    (bt1 bt2 : list Q -> positive -> pyresult (tempo_value * list nat))
    (argv : list string) :
  (forall h1 h2,
     succeeds_with (main (with_beat_track W bt1) argv) h1 ->
     succeeds_with (main (with_beat_track W bt2) argv) h2 ->
     h1 = h2) /\
  ((forall y sr, rhythm_returns (bt1 y sr)) ->
   (forall y sr, rhythm_returns (bt2 y sr)) ->
   stdout (main (with_beat_track W bt1) argv)
     = stdout (main (with_beat_track W bt2) argv) /\
   exit_code (main (with_beat_track W bt1) argv)
     = exit_code (main (with_beat_track W bt2) argv)).
Proof.
  split.
  - intros h1 h2 H1 H2.
    apply succeeds_iff in H1 as [_ H1]. apply succeeds_iff in H2 as [_ H2].
    apply analysis_with_beat_track_ok in H1 as (y1 & sr1 & Hl1 & Hs1).
    apply analysis_with_beat_track_ok in H2 as (y2 & sr2 & Hl2 & Hs2).
    rewrite Hl1 in Hl2. injection Hl2 as <- <-.
    rewrite Hs1 in Hs2. now injection Hs2.
  - intros Hbt1 Hbt2.
    destruct (Nat.lt_ge_cases (length argv) 2) as [Hlt|Hge].
    + rewrite !(main_no_path _ argv Hlt). split; reflexivity.
    + destruct (main_with_path (with_beat_track W bt1) argv Hge) as (tr1 & Hq1 & ->).
      destruct (main_with_path (with_beat_track W bt2) argv Hge) as (tr2 & Hq2 & ->).
      rewrite !analysis_with_beat_track_returns by assumption.
      simpl. rewrite !stdout_quiet, !exit_code_quiet by assumption.
      destruct (rbind _ _); split; reflexivity.
Qed.

Lemma C9_rhythm_does_not_influence_witness :
  stdout (main (with_beat_track track_world (beat_track track_world)) track_argv)
    = stdout (main (with_beat_track track_world (beat_track clip_world)) track_argv).
Proof.
  destruct (C9_rhythm_does_not_influence track_world
              (beat_track track_world) (beat_track clip_world) track_argv)
    as [_ H].
  destruct H as [H _].
  - intros y sr. exists (TempoScalar 90), [4; 8; 12]%nat, 90. split; reflexivity.
  - intros y sr. exists (TempoArray [120]), [10; 21; 32]%nat, 120. split; reflexivity.
  - exact H.
Defined.

(** * Further properties of the script *)

(** ** The trace of the [try] block *)

Lemma try_block_log (W : World) (audio_path : string) :
  exists tr0,
    forallb quiet tr0 = true /\
    paired audio_path tr0 = true /\
    loads tr0 = [audio_path] /\
    match analysis W audio_path with
    | Ok h => try_block W audio_path
              = (tr0 ++ [Print (highlight_json h); LogClose], Ok tt)
    | Raise e => try_block W audio_path = (tr0, Raise e)
    end.
Proof.
  assert (Hp : forall tr,
             paired audio_path (LogWrite (MsgProcessing audio_path) :: LogFlush
                                  :: LoadAudio audio_path :: tr)
             = paired audio_path tr)
    by (intro tr; simpl; now rewrite String.eqb_refl).
  unfold try_block, analysis, rhythm, selection, select_window, log_debug, emit, lift,
    bind, rbind.
  cbn [app].
  destruct (librosa_load W audio_path) as [[y sr]|e];
    [|eexists; split; [|split; [|split; [|reflexivity]]];
      [reflexivity|rewrite Hp; reflexivity|reflexivity]].
  cbn [app].
  destruct (beat_track W y sr) as [[tempo beats]|e];
    [|eexists; split; [|split; [|split; [|reflexivity]]];
      [reflexivity|rewrite Hp; reflexivity|reflexivity]].
  destruct (float_of_tempo tempo) as [t|e];
    [|eexists; split; [|split; [|split; [|reflexivity]]];
      [reflexivity|rewrite Hp; reflexivity|reflexivity]].
  cbn [app].
  destruct (onset_strength W y sr) as [env|e];
    [|eexists; split; [|split; [|split; [|reflexivity]]];
      [reflexivity|rewrite Hp; reflexivity|reflexivity]].
  destruct (np_ones (window_size sr)) as [ones|e];
    [|eexists; split; [|split; [|split; [|reflexivity]]];
      [reflexivity|rewrite Hp; reflexivity|reflexivity]].
  destruct (np_convolve_valid env ones) as [curve|e];
    [|eexists; split; [|split; [|split; [|reflexivity]]];
      [reflexivity|rewrite Hp; reflexivity|reflexivity]].
  destruct (np_argmax curve) as [idx|e];
    [|eexists; split; [|split; [|split; [|reflexivity]]];
      [reflexivity|rewrite Hp; reflexivity|reflexivity]].
  destruct (py_div (nth idx curve 0) (np_mean curve)) as [ratio|e];
    [|eexists; split; [|split; [|split; [|reflexivity]]];
      [reflexivity|rewrite Hp; reflexivity|reflexivity]].
  unfold clamp_start, highlight_duration, ret.
  destruct (Qgtb (frames_to_time idx sr) (get_duration y sr - 20)); cbn [app].
  - eexists (_ :: _ :: _ :: _ :: _ :: _ :: _ :: _ :: _ :: _ :: _ :: _ :: _ :: _ :: [_]).
    split; [|split; [|split; [|reflexivity]]];
      [reflexivity|rewrite Hp; reflexivity|reflexivity].
  - eexists (_ :: _ :: _ :: _ :: _ :: _ :: _ :: _ :: _ :: _ :: _ :: _ :: [_]).
    split; [|split; [|split; [|reflexivity]]];
      [reflexivity|rewrite Hp; reflexivity|reflexivity].
Qed.

Lemma main_with_path_log (W : World) (argv : list string) :
  (2 <= length argv)%nat ->
  exists tr0,
    forallb quiet tr0 = true /\
    paired (nth 1 argv EmptyString) tr0 = true /\
    loads tr0 = [nth 1 argv EmptyString] /\
    main W argv =
      LogOpen :: tr0 ++
        match analysis W (nth 1 argv EmptyString) with
        | Ok h => [Print (highlight_json h); LogClose; Exit 0]
        | Raise e => [Print (error_json (error_message W e)); LogClose; Exit 1]
        end.
Proof.
  intro H. unfold main.
  assert (Hlt : (length argv <? 2)%nat = false) by (apply Nat.ltb_ge; exact H).
  rewrite Hlt.
  destruct (try_block_log W (nth 1 argv EmptyString)) as (tr0 & Hq & Hp & Hl & Hrun).
  exists tr0. repeat (split; [assumption|]).
  destruct (analysis W (nth 1 argv EmptyString)) as [h|e]; rewrite Hrun.
  - now rewrite <- app_assoc.
  - reflexivity.
Qed.

Lemma log_discipline_paired (audio_path : string) (n : nat) :
  forall tr0 rest,
    (length tr0 <= n)%nat ->
    paired audio_path tr0 = true ->
    log_discipline LogReady (tr0 ++ rest) = log_discipline LogReady rest.
Proof.
  induction n as [|n IH]; intros tr0 rest Hlen Hp.
  - destruct tr0; [reflexivity|simpl in Hlen; lia].
  - destruct tr0 as [|ev tr0]; [reflexivity|].
    destruct ev; simpl in Hp; try discriminate.
    + destruct tr0 as [|ev' tr0]; [discriminate|].
      destruct ev'; try discriminate. simpl.
      apply IH; [simpl in Hlen; lia|exact Hp].
    + apply andb_true_iff in Hp as [_ Hp]. simpl.
      apply IH; [simpl in Hlen; lia|exact Hp].
Qed.

Lemma loads_app (tr tr' : list event) : loads (tr ++ tr') = loads tr ++ loads tr'.
Proof.
  induction tr as [|ev tr IH]; simpl; [reflexivity|].
  destruct ev; simpl; now rewrite ?IH.
Qed.

(** Every run prints exactly one JSON object and exits: a Highlight Result
    with exit code 0 or an Error Result with exit code 1, never one with
    the other's code and never both (lines 26-28 and 75-88). *)
Theorem run_has_one_outcome (W : World) (argv : list string) :
  exists j code,
    stdout (main W argv) = [j] /\
    exit_code (main W argv) = Some code /\
    ((code = 0%Z /\ exists h, j = highlight_json h) \/
     (code = 1%Z /\ exists msg, j = error_json msg)) /\
    ~ ((exists h, j = highlight_json h) /\ (exists msg, j = error_json msg)).
Proof.
  assert (Hex : forall h msg, highlight_json h <> error_json msg)
    by (intros h msg; discriminate).
  destruct (main_outcome W argv) as [[h [Hout Hexit]]|[msg [Hout Hexit]]].
  - exists (highlight_json h), 0%Z. repeat split; try assumption.
    + left. split; [reflexivity|]. now exists h.
    + intros [_ [msg Hmsg]]. exact (Hex _ _ Hmsg).
  - exists (error_json msg), 1%Z. repeat split; try assumption.
    + right. split; [reflexivity|]. now exists msg.
    + intros [[h Hh] _]. symmetry in Hh. exact (Hex _ _ Hh).
Qed.

(** In every run the log handle is used correctly: opened first and once,
    each write followed at once by a flush ([log_debug], lines 15-17),
    nothing written after the close, and the exit is the last event. *)
Theorem log_handle_discipline (W : World) (argv : list string) :
  log_discipline LogUnopened (main W argv) = true.
Proof.
  destruct (Nat.lt_ge_cases (length argv) 2) as [Hlt|Hge].
  - rewrite (main_no_path W argv Hlt). reflexivity.
  - destruct (main_with_path_log W argv Hge) as (tr0 & _ & Hp & _ & ->).
    simpl. rewrite (log_discipline_paired _ _ tr0 _ (le_n _) Hp).
    destruct (analysis W (nth 1 argv EmptyString)); reflexivity.
Qed.

(** With a path argument, [librosa.load] is called exactly once, on
    [sys.argv[1]]; the program name and any further arguments do not
    change the run (lines 26-36). *)
Theorem load_called_once_on_first_argument (W : World) (argv : list string) :
  (2 <= length argv)%nat ->
  loads (main W argv) = [nth 1 argv EmptyString] /\
  forall prog prog' rest rest' audio_path,
    main W (prog :: audio_path :: rest) = main W (prog' :: audio_path :: rest').
Proof.
  intro Hge. split.
  - destruct (main_with_path_log W argv Hge) as (tr0 & _ & _ & Hl & ->).
    simpl. rewrite loads_app, Hl.
    destruct (analysis W (nth 1 argv EmptyString)); reflexivity.
  - intros. reflexivity.
Qed.

Lemma load_called_once_on_first_argument_witness :
  loads (main clip_world [script_name; "clip.wav"; "other.wav"]%string)
    = ["clip.wav"%string].
Proof.
  destruct (load_called_once_on_first_argument clip_world
              [script_name; "clip.wav"; "other.wav"]%string) as [H _].
  - simpl; lia.
  - exact H.
Defined.

(** ** Failures of the stages *)

(** When [librosa.load] raises (missing file, unsupported format), the run
    is: open the log, log the path, call load, print the Error Result with
    the exception's text and traceback, close the log, exit 1.  No other
    line is logged (lines 32-36 and 83-88). *)
Theorem load_failure_is_reported (W : World) (argv : list string) (e : exn) :
  (2 <= length argv)%nat ->
  librosa_load W (nth 1 argv EmptyString) = Raise e ->
  main W argv =
    [LogOpen; LogWrite (MsgProcessing (nth 1 argv EmptyString)); LogFlush;
     LoadAudio (nth 1 argv EmptyString);
     Print (error_json (error_message W e)); LogClose; Exit 1] /\
  fails_with (main W argv) (error_message W e).
Proof.
  intros Hge Hload.
  assert (Hlt : (length argv <? 2)%nat = false) by (apply Nat.ltb_ge; exact Hge).
  assert (Hmain : main W argv =
    [LogOpen; LogWrite (MsgProcessing (nth 1 argv EmptyString)); LogFlush;
     LoadAudio (nth 1 argv EmptyString);
     Print (error_json (error_message W e)); LogClose; Exit 1]).
  { unfold main, try_block, log_debug, emit, lift, bind. rewrite Hlt.
    cbn [app]. rewrite Hload. reflexivity. }
  split; [exact Hmain|]. rewrite Hmain. split; reflexivity.
Qed.

Lemma load_failure_is_reported_witness :
  fails_with
    (main (mkWorld (fun _ => Raise (LibraryError "No such file"))
             (beat_track clip_world) (onset_strength clip_world)
             (format_exc clip_world)) clip_argv)
    (error_message clip_world (LibraryError "No such file")).
Proof.
  apply (load_failure_is_reported
           (mkWorld (fun _ => Raise (LibraryError "No such file"))
              (beat_track clip_world) (onset_strength clip_world)
              (format_exc clip_world)) clip_argv
           (LibraryError "No such file")).
  - simpl; lia.
  - reflexivity.
Defined.

(** The Rhythm Analyzer is inside the [try]: although its tempo and beats
    never reach the result, a run whose [beat_track] raises, or returns a
    tempo array that does not hold exactly one value, fails with that error
    whatever the onset curve is (lines 43-46). *)
Theorem rhythm_failure_is_fatal (W : World) (argv : list string)
    (y : list Q) (sr : positive) :
  (2 <= length argv)%nat ->
  librosa_load W (nth 1 argv EmptyString) = Ok (y, sr) ->
  (forall e, beat_track W y sr = Raise e ->
     fails_with (main W argv) (error_message W e)) /\
  (forall ts beats, beat_track W y sr = Ok (TempoArray ts, beats) ->
     length ts <> 1%nat ->
     fails_with (main W argv)
       (error_message W
          (ValueError "can only convert an array of size 1 to a Python scalar"))).
Proof.
  intros Hge Hload. split.
  - intros e Hbt. apply fails_iff. right. split; [exact Hge|].
    exists e. split; [|reflexivity].
    unfold analysis, rhythm, rbind. now rewrite Hload, Hbt.
  - intros ts beats Hbt Hlen. apply fails_iff. right. split; [exact Hge|].
    eexists. split; [|reflexivity].
    unfold analysis, rhythm, rbind. rewrite Hload, Hbt.
    destruct ts as [|t [|t' ts]]; simpl in *; try reflexivity. congruence.
Qed.

Lemma rhythm_failure_is_fatal_witness :
  fails_with
    (main (with_beat_track clip_world (fun _ _ => Ok (TempoArray [], []))) clip_argv)
    (error_message clip_world
       (ValueError "can only convert an array of size 1 to a Python scalar")).
Proof.
  destruct (rhythm_failure_is_fatal
              (with_beat_track clip_world (fun _ _ => Ok (TempoArray [], [])))
              clip_argv clip_waveform 22050) as [_ H].
  - simpl; lia.
  - reflexivity.
  - apply (H [] []); [reflexivity|simpl; lia].
Defined.

Lemma np_convolve_valid_empty (a v : list Q) :
  a = [] \/ v = [] -> exists msg, np_convolve_valid a v = Raise (ValueError msg).
Proof.
  unfold np_convolve_valid.
  intros [->| ->]; destruct (_ <? _)%nat; try destruct a; try destruct v;
    eexists; reflexivity.
Qed.

(** [np.convolve] refuses an empty operand, so a run cannot succeed when
    the onset curve is empty or when the sample rate is below 103 Hz, where
    the window has zero frames; with the Rhythm Analyzer returning, it fails
    with numpy's [ValueError] (lines 54-55). *)
Theorem empty_operand_fails (W : World) (argv : list string)
    (y onset_env : list Q) (sr : positive) :
  (2 <= length argv)%nat ->
  librosa_load W (nth 1 argv EmptyString) = Ok (y, sr) ->
  onset_strength W y sr = Ok onset_env ->
  onset_env = [] \/ (sr <= 102)%positive ->
  (forall h, ~ succeeds_with (main W argv) h) /\
  (rhythm_returns (beat_track W y sr) ->
   exists msg, fails_with (main W argv) (error_message W (ValueError msg))).
Proof.
  intros Hge Hload Henv Hdeg.
  assert (Hconv : exists msg,
             np_convolve_valid onset_env (repeat 1 (Z.to_nat (window_size sr)))
             = Raise (ValueError msg)).
  { apply np_convolve_valid_empty. destruct Hdeg as [->|Hsr]; [left; reflexivity|].
    right. pose proof (window_size_floor sr) as [Hlo Hhi].
    pose proof (window_size_nonneg sr). unfold hop_length in *.
    assert (window_size sr = 0)%Z as -> by lia. reflexivity. }
  destruct Hconv as [msg Hconv].
  assert (Hsel : select_window onset_env sr = Raise (ValueError msg)).
  { unfold select_window. rewrite np_ones_window. unfold rbind. now rewrite Hconv. }
  split.
  - intros h Hrun. apply succeeds_iff in Hrun as [_ Han].
    apply analysis_ok in Han
      as (y' & sr' & t & env & idx & ratio & Hload' & _ & Henv' & Hsel' & _).
    rewrite Hload in Hload'. injection Hload' as <- <-.
    rewrite Henv in Henv'. injection Henv' as <-.
    rewrite Hsel in Hsel'. discriminate Hsel'.
  - intros (tempo & beats & t & Hbt & Ht). exists msg.
    apply fails_iff. right. split; [exact Hge|].
    exists (ValueError msg). split; [|reflexivity].
    unfold analysis, rhythm, selection, rbind.
    now rewrite Hload, Hbt, Ht, Henv, Hsel.
Qed.

Lemma empty_operand_fails_witness :
  exists msg,
    fails_with
      (main (mkWorld (librosa_load clip_world) (beat_track clip_world)
               (fun _ _ => Ok []) (format_exc clip_world)) clip_argv)
      (error_message clip_world (ValueError msg)).
Proof.
  destruct (empty_operand_fails
              (mkWorld (librosa_load clip_world) (beat_track clip_world)
                 (fun _ _ => Ok []) (format_exc clip_world))
              clip_argv clip_waveform [] 22050) as [_ H].
  - simpl; lia.
  - reflexivity.
  - reflexivity.
  - left; reflexivity.
  - apply H. exists (TempoArray [120]), [10; 21; 32]%nat, 120. split; reflexivity.
Defined.

(** ** The selected window *)

(** Line 55 in the usual case: for a window of [w] frames with
    [1 <= w <= n], [np.convolve(onset_env, np.ones(w), 'valid')] has
    [n - w + 1] entries and entry [k] is the sum of the [w] onset values
    from frame [k] on. *)
Theorem window_energy_is_sliding_sum (onset_env : list Q) (w : nat) :
  (1 <= w <= length onset_env)%nat ->
  exists onset_sum,
    np_convolve_valid onset_env (repeat 1 w) = Ok onset_sum /\
    length onset_sum = (length onset_env - w + 1)%nat /\
    forall k, (k + w <= length onset_env)%nat ->
      nth k onset_sum 0 == Qsum (firstn w (skipn k onset_env)).
Proof.
  intro Hw. destruct (window_energy_sliding_sum onset_env w Hw)
    as (curve & Hconv & Hlen & Hnth).
  exists curve. repeat split; try assumption.
  intros k Hk. apply Hnth. lia.
Qed.

Lemma window_energy_is_sliding_sum_witness :
  exists onset_sum,
    np_convolve_valid [1; 2; 3; 4; 5] (repeat 1 2) = Ok onset_sum /\
    length onset_sum = 4%nat.
Proof.
  destruct (window_energy_is_sliding_sum [1; 2; 3; 4; 5] 2)
    as (curve & Hconv & Hlen & _).
  - simpl; lia.
  - exists curve. split; assumption.
Defined.

(** In a successful run on an onset curve at least as long as the window,
    the start comes from a window of [w] whole frames whose summed onset
    strength no other such window exceeds and no earlier one equals
    (lines 54-59 and 68-70). *)
Theorem selected_window_is_best (W : World) (argv : list string) (h : Highlight)
    (y onset_env : list Q) (sr : positive) :
  succeeds_with (main W argv) h ->
  librosa_load W (nth 1 argv EmptyString) = Ok (y, sr) ->
  onset_strength W y sr = Ok onset_env ->
  (Z.to_nat (window_size sr) <= length onset_env)%nat ->
  exists peak_idx,
    (1 <= Z.to_nat (window_size sr))%nat /\
    (peak_idx + Z.to_nat (window_size sr) <= length onset_env)%nat /\
    (forall k, (k + Z.to_nat (window_size sr) <= length onset_env)%nat ->
       Qsum (firstn (Z.to_nat (window_size sr)) (skipn k onset_env))
       <= Qsum (firstn (Z.to_nat (window_size sr)) (skipn peak_idx onset_env))) /\
    (forall k, (k < peak_idx)%nat ->
       Qsum (firstn (Z.to_nat (window_size sr)) (skipn k onset_env))
       < Qsum (firstn (Z.to_nat (window_size sr)) (skipn peak_idx onset_env))) /\
    start h = clamp_start (frames_to_time peak_idx sr) (get_duration y sr).
Proof.
  intros Hrun Hload Henv Hw.
  apply succeeds_iff in Hrun as [_ Han].
  apply analysis_ok in Han
    as (y' & sr' & t & env & idx & ratio & Hload' & _ & Henv' & Hsel & ->).
  rewrite Hload in Hload'. injection Hload' as <- <-.
  rewrite Henv in Henv'. injection Henv' as <-.
  apply select_window_ok in Hsel as (curve & Hconv & Hidx & _ & _).
  set (w := Z.to_nat (window_size sr)) in *.
  assert (Hw1 : (1 <= w)%nat).
  { destruct (np_convolve_valid_ok _ _ _ Hconv) as (_ & Hv & _).
    destruct w; [exfalso; apply Hv; reflexivity|lia]. }
  destruct (window_energy_sliding_sum onset_env w (conj Hw1 Hw))
    as (curve' & Hconv' & Hlen & Hnth).
  rewrite Hconv in Hconv'. injection Hconv' as <-.
  destruct (np_argmax_spec curve idx Hidx) as (Hlt & Hmax & Hfirst).
  exists idx. split; [exact Hw1|]. split; [lia|]. split; [|split].
  - intros k Hk. rewrite <- !Hnth by lia. apply Hmax. lia.
  - intros k Hk. rewrite <- !Hnth by lia. apply Hfirst. exact Hk.
  - reflexivity.
Qed.

Lemma selected_window_is_best_witness :
  exists peak_idx,
    start track_highlight
    = clamp_start (frames_to_time peak_idx 1024) (get_duration track_waveform 1024).
Proof.
  destruct (selected_window_is_best track_world track_argv track_highlight
              track_waveform track_onset 1024)
    as (idx & _ & _ & _ & _ & Hstart).
  - split; vm_compute; reflexivity.
  - reflexivity.
  - reflexivity.
  - vm_compute. lia.
  - exists idx. exact Hstart.
Defined.




(** ** Where the highlight lies *)

(** For a track of at least 20 seconds every successful run prints a
    duration of exactly 20 and a start of at most [track_duration - 20]
    (lines 68-72). *)
Theorem long_track_gets_twenty_seconds (W : World) (argv : list string)
    (h : Highlight) (y : list Q) (sr : positive) :
  succeeds_with (main W argv) h ->
  librosa_load W (nth 1 argv EmptyString) = Ok (y, sr) ->
  20 <= get_duration y sr ->
  duration h == 20 /\ start h <= get_duration y sr - 20.
Proof.
  intros Hrun Hload Hlong.
  apply succeeds_iff in Hrun as [_ Han].
  apply analysis_ok in Han
    as (y' & sr' & t & env & idx & ratio & Hload' & _ & _ & _ & ->).
  rewrite Hload in Hload'. injection Hload' as <- <-.
  simpl. unfold highlight_duration, clamp_start, py_min, py_max.
  split; repeat case_cmp; lra.
Qed.

Lemma long_track_gets_twenty_seconds_witness :
  duration track_highlight == 20 /\
  start track_highlight <= get_duration track_waveform 1024 - 20.
Proof.
  apply (long_track_gets_twenty_seconds track_world track_argv track_highlight
           track_waveform 1024).
  - split; vm_compute; reflexivity.
  - reflexivity.
  - vm_compute. discriminate.
Defined.

(** The adjustment of lines 68-70 only moves the start earlier: the printed
    start is never after the start time of the peak window, and when it
    differs from it the highlight ends exactly at the end of the track. *)
Theorem adjusted_start_is_earlier (W : World) (argv : list string)
    (h : Highlight) (y : list Q) (sr : positive) :
  succeeds_with (main W argv) h ->
  librosa_load W (nth 1 argv EmptyString) = Ok (y, sr) ->
  exists onset_env onset_sum peak_idx,
    onset_strength W y sr = Ok onset_env /\
    np_convolve_valid onset_env (repeat 1 (Z.to_nat (window_size sr)))
      = Ok onset_sum /\
    np_argmax onset_sum = Ok peak_idx /\
    start h <= frames_to_time peak_idx sr /\
    (start h = frames_to_time peak_idx sr \/
     start h + duration h == get_duration y sr).
Proof.
  intros Hrun Hload.
  apply succeeds_iff in Hrun as [_ Han].
  apply analysis_ok in Han
    as (y' & sr' & t & env & idx & ratio & Hload' & _ & Henv & Hsel & ->).
  rewrite Hload in Hload'. injection Hload' as <- <-.
  apply select_window_ok in Hsel as (curve & Hconv & Hidx & _ & _).
  exists env, curve, idx.
  split; [exact Henv|]. split; [exact Hconv|]. split; [exact Hidx|].
  pose proof (frames_to_time_nonneg idx sr) as Hs.
  simpl. unfold highlight_duration, clamp_start.
  destruct (Qgtb (frames_to_time idx sr) (get_duration y sr - 20)) eqn:E.
  - apply Qgtb_gt in E. split.
    + unfold py_max. case_cmp; lra.
    + right. unfold py_min, py_max. repeat case_cmp; lra.
  - split; [apply Qle_refl|left; reflexivity].
Qed.

Lemma adjusted_start_is_earlier_witness :
  exists peak_idx, start track_highlight <= frames_to_time peak_idx 1024.
Proof.
  destruct (adjusted_start_is_earlier track_world track_argv track_highlight
              track_waveform 1024)
    as (env & curve & idx & _ & _ & _ & Hle & _).
  - split; vm_compute; reflexivity.
  - reflexivity.
  - exists idx. exact Hle.
Defined.

(** ** The printed line *)

Lemma all_printable_app (s1 s2 : string) :
  all_printable (s1 ++ s2) = all_printable s1 && all_printable s2.
Proof.
  induction s1 as [|c s1 IH]; simpl; [reflexivity|].
  now rewrite IH, andb_assoc.
Qed.

Lemma escape_char_printable (c : ascii) : all_printable (escape_char c) = true.
Proof.
  destruct c as [[] [] [] [] [] [] [] []]; reflexivity.
Qed.

Lemma escape_string_printable (s : string) :
  all_printable (escape_string s) = true.
Proof.
  induction s as [|c s IH]; simpl; [reflexivity|].
  now rewrite all_printable_app, escape_char_printable, IH.
Qed.

Lemma dumps_string_printable (s : string) :
  all_printable (dumps_string s) = true.
Proof.
  unfold dumps_string. rewrite all_printable_app. cbn [all_printable].
  rewrite escape_string_printable. reflexivity.
Qed.

Lemma dumps_items_printable (float_repr : Q -> string) (j : json) :
  (forall x, all_printable (float_repr x) = true) ->
  all_printable (dumps_items float_repr j) = true.
Proof.
  intro Hrepr.
  assert (Hitem : forall kv, all_printable (dumps_item float_repr kv) = true).
  { intros [k v]. unfold dumps_item. cbn [fst snd].
    rewrite !all_printable_app, dumps_string_printable.
    change (all_printable ": ") with true. cbn [andb].
    destruct v; cbn [dumps_value]; [apply dumps_string_printable|apply Hrepr]. }
  induction j as [|kv j IH]; [reflexivity|].
  destruct j as [|kv' j]; [apply Hitem|].
  change (dumps_items float_repr (kv :: kv' :: j))
    with (dumps_item float_repr kv ++ ", " ++ dumps_items float_repr (kv' :: j))%string.
  rewrite !all_printable_app, Hitem, IH. reflexivity.
Qed.

Lemma printable_no_newline (s : string) :
  all_printable s = true -> ~ In newline_char (list_ascii_of_string s).
Proof.
  induction s as [|c s IH]; simpl; [tauto|].
  intro H. apply andb_true_iff in H as [Hc Hs].
  intros [->|Hin]; [discriminate Hc|exact (IH Hs Hin)].
Qed.

(** Whatever is printed is one line of printable ASCII: provided floats are
    rendered in printable ASCII, every line [json.dumps] gives for a run
    holds only characters 32 to 126, so no newline, even though the error
    message of line 85 holds a newline and a traceback (lines 27, 81, 86). *)
Theorem printed_lines_are_printable_ascii (float_repr : Q -> string)
    (W : World) (argv : list string) :
  (forall x, all_printable (float_repr x) = true) ->
  forall line,
    In line (map (json_dumps float_repr) (stdout (main W argv))) ->
    all_printable line = true /\ ~ In newline_char (list_ascii_of_string line).
Proof.
  intros Hrepr line Hin. apply in_map_iff in Hin as (j & <- & _).
  assert (Hp : all_printable (json_dumps float_repr j) = true).
  { unfold json_dumps. rewrite !all_printable_app.
    rewrite (dumps_items_printable float_repr j Hrepr). reflexivity. }
  split; [exact Hp|apply printable_no_newline; exact Hp].
Qed.

Lemma printed_lines_are_printable_ascii_witness :
  all_printable no_audio_line = true /\
  ~ In newline_char (list_ascii_of_string no_audio_line).
Proof.
  apply (printed_lines_are_printable_ascii (fun _ => "0.5"%string)
           clip_world [script_name]).
  - intro x. reflexivity.
  - left. reflexivity.
Defined.

(** ** [to_json_serializable] *)




(** * Properties of convert_model.py *)



(** Started with anything but exactly one argument, the conversion script
    prints its usage line and exits with code 1; no model is loaded and
    nothing is saved (lines 57-59). *)
Theorem convert_usage (T : ConvertModel.Torch) (argv : list string) :
  length argv <> 2%nat ->
  ConvertModel.main T argv =
    [ConvertModel.Printed "Usage: convert_model.py <output_path>";
     ConvertModel.Exited 1] /\
  ConvertModel.save_calls (ConvertModel.main T argv) = [] /\
  ConvertModel.exit_code (ConvertModel.main T argv) = Some 1%Z.
Proof.
  intro H. unfold ConvertModel.main.
  assert (E : (length argv =? 2)%nat = false) by (apply Nat.eqb_neq; exact H).
  rewrite E. repeat split; reflexivity.
Qed.

Lemma convert_usage_witness :
  ConvertModel.main ConvertModel.ideal
    ["convert_model.py"; "a.mlpackage"; "b.mlpackage"]%string =
    [ConvertModel.Printed "Usage: convert_model.py <output_path>";
     ConvertModel.Exited 1].
Proof.
  destruct (convert_usage ConvertModel.ideal
              ["convert_model.py"; "a.mlpackage"; "b.mlpackage"]%string) as [H _].
  - simpl; lia.
  - exact H.
Defined.



Lemma convert_cases (T : ConvertModel.Torch) (output_path : string) :
  (exists mlmodel vocab,
     ConvertModel.convert_phi2_to_coreml T output_path =
       ([ConvertModel.Printed "Loading Phi-2 model...";
         ConvertModel.LoadModel ConvertModel.model_id;
         ConvertModel.LoadTokenizer ConvertModel.model_id;
         ConvertModel.Printed "Converting to CoreML format...";
         ConvertModel.Printed ("Saving model to " ++ output_path ++ "...");
         ConvertModel.SaveCall output_path (ConvertModel.add_metadata mlmodel vocab);
         ConvertModel.Printed "Conversion complete!"], Ok tt)) \/
  (exists mlmodel vocab e,
     ConvertModel.convert_phi2_to_coreml T output_path =
       ([ConvertModel.Printed "Loading Phi-2 model...";
         ConvertModel.LoadModel ConvertModel.model_id;
         ConvertModel.LoadTokenizer ConvertModel.model_id;
         ConvertModel.Printed "Converting to CoreML format...";
         ConvertModel.Printed ("Saving model to " ++ output_path ++ "...");
         ConvertModel.SaveCall output_path (ConvertModel.add_metadata mlmodel vocab)],
        Raise e)) \/
  (exists tr e,
     ConvertModel.convert_phi2_to_coreml T output_path = (tr, Raise e) /\
     ConvertModel.save_calls tr = [] /\
     ConvertModel.exit_code tr = None /\
     ~ In (ConvertModel.Printed "Conversion complete!") tr).
Proof.
  assert (Hquiet : forall tr e,
             ConvertModel.save_calls tr = [] ->
             ConvertModel.exit_code tr = None ->
             ~ In (ConvertModel.Printed "Conversion complete!") tr ->
             exists tr' e',
               (tr, @Raise unit e) = (tr', Raise e') /\
               ConvertModel.save_calls tr' = [] /\
               ConvertModel.exit_code tr' = None /\
               ~ In (ConvertModel.Printed "Conversion complete!") tr')
    by (intros tr e H1 H2 H3; exists tr, e; auto).
  unfold ConvertModel.convert_phi2_to_coreml, ConvertModel.cemit, ConvertModel.clift,
    ConvertModel.cbind.
  cbn [app].
  destruct (ConvertModel.model_from_pretrained T ConvertModel.model_id) as [model|e].
  2:{ right; right. apply Hquiet; try reflexivity.
      simpl. intros [H|[H|[]]]; discriminate H. }
  cbn [app].
  destruct (ConvertModel.tokenizer_from_pretrained T ConvertModel.model_id)
    as [tokenizer|e].
  2:{ right; right. apply Hquiet; try reflexivity.
      simpl. intros [H|[H|[H|[]]]]; discriminate H. }
  cbn [app].
  assert (Hfour : ~ In (ConvertModel.Printed "Conversion complete!")
                    [ConvertModel.Printed "Loading Phi-2 model...";
                     ConvertModel.LoadModel ConvertModel.model_id;
                     ConvertModel.LoadTokenizer ConvertModel.model_id;
                     ConvertModel.Printed "Converting to CoreML format..."])
    by (simpl; intros [H|[H|[H|[H|[]]]]]; discriminate H).
  destruct (ConvertModel.input_ids_of T tokenizer ConvertModel.example_text)
    as [input_ids|e].
  2:{ right; right. apply Hquiet; try reflexivity. exact Hfour. }
  destruct (ConvertModel.jit_trace T model input_ids) as [traced|e].
  2:{ right; right. apply Hquiet; try reflexivity. exact Hfour. }
  destruct (ConvertModel.ct_convert T traced) as [mlmodel|e].
  2:{ right; right. apply Hquiet; try reflexivity. exact Hfour. }
  destruct (ConvertModel.vocab_str T tokenizer) as [vocab|e].
  2:{ right; right. apply Hquiet; try reflexivity. exact Hfour. }
  cbn [app].
  destruct (ConvertModel.save T (ConvertModel.add_metadata mlmodel vocab) output_path)
    as [[]|e].
  - left. exists mlmodel, vocab. reflexivity.
  - right; left. exists mlmodel, vocab, e. reflexivity.
Qed.

(** A conversion run with one argument.  The exit code is 0 or 1, and it is
    0 exactly when [Conversion complete!] was printed.  [save] is called at
    most once, always on [sys.argv[1]] and always with the metadata already
    written on the model; a run that exits with 0 called it, after both
    progress lines and before the last one (lines 7-61). *)
Theorem convert_run_shape (T : ConvertModel.Torch) (argv : list string) :
  let tr := ConvertModel.main T argv in
  (ConvertModel.exit_code tr = Some 0%Z \/ ConvertModel.exit_code tr = Some 1%Z) /\
  (In (ConvertModel.Printed "Conversion complete!") tr
     <-> ConvertModel.exit_code tr = Some 0%Z) /\
  (ConvertModel.save_calls tr = [] \/
   exists mlmodel vocab,
     ConvertModel.save_calls tr
     = [(nth 1 argv EmptyString, ConvertModel.add_metadata mlmodel vocab)]) /\
  (ConvertModel.exit_code tr = Some 0%Z ->
   exists mlmodel vocab,
     ConvertModel.save_calls tr
     = [(nth 1 argv EmptyString, ConvertModel.add_metadata mlmodel vocab)] /\
     ConvertModel.printed tr =
       ["Loading Phi-2 model..."; "Converting to CoreML format...";
        "Saving model to " ++ nth 1 argv EmptyString ++ "...";
        "Conversion complete!"]%string).
Proof.
  assert (Hno : forall p : string,
             ConvertModel.Printed ("Saving model to " ++ p ++ "...")
             <> ConvertModel.Printed "Conversion complete!")
    by (intros p H; simpl in H; discriminate H).
  unfold ConvertModel.main.
  destruct (negb (length argv =? 2)%nat).
  - cbn. split; [right; reflexivity|].
    split; [|split; [left; reflexivity|discriminate]].
    split; [|discriminate]. intros [H|[H|[]]]; discriminate H.
  - destruct (convert_cases T (nth 1 argv EmptyString))
      as [(m & vocab & ->)|[(m & vocab & e & ->)|(tr & e & -> & Hs & He & Hp)]].
    + cbn. split; [left; reflexivity|]. split; [split; [reflexivity|tauto]|].
      split; [right; exists m, vocab; reflexivity|].
      intros _. exists m, vocab. split; reflexivity.
    + cbn. split; [right; reflexivity|]. split; [split|].
      * intros [H|[H|[H|[H|[H|[H|[H|[H|[]]]]]]]]]; try discriminate H;
          exfalso; exact (Hno _ H).
      * discriminate.
      * split; [right; exists m, vocab; reflexivity|discriminate].
    + assert (Hsave : ConvertModel.save_calls
                        (tr ++ [ConvertModel.Traceback e; ConvertModel.Exited 1]) = []).
      { clear -Hs. induction tr as [|ev tr IH]; [reflexivity|].
        destruct ev; simpl in *; try discriminate; auto. }
      assert (Hexit : ConvertModel.exit_code
                        (tr ++ [ConvertModel.Traceback e; ConvertModel.Exited 1])
                      = Some 1%Z).
      { clear -He. induction tr as [|ev tr IH]; [reflexivity|].
        destruct ev; simpl in *; try discriminate; auto. }
      rewrite Hsave, Hexit.
      split; [right; reflexivity|]. split; [split|].
      * intro H. apply in_app_or in H as [H|[H|[H|[]]]];
          [contradiction|discriminate H|discriminate H].
      * discriminate.
      * split; [left; reflexivity|discriminate].
Qed.

Lemma convert_run_shape_witness :
  ConvertModel.printed
    (ConvertModel.main ConvertModel.ideal ["convert_model.py"; "phi2.mlpackage"]%string)
  = ["Loading Phi-2 model..."; "Converting to CoreML format...";
     "Saving model to phi2.mlpackage..."; "Conversion complete!"]%string.
Proof.
  destruct (convert_run_shape ConvertModel.ideal
              ["convert_model.py"; "phi2.mlpackage"]%string) as (_ & _ & _ & H).
  destruct H as (m & vocab & _ & Hprinted).
  - reflexivity.
  - exact Hprinted.
Defined.

(** * The log against the result *)

(** The log of a successful run ends with the energy ratio that is printed,
    at most one adjustment line, and the interval
    [start .. start + duration] of the printed result (lines 65-73). *)
Theorem log_reports_the_result (W : World) (argv : list string) (h : Highlight) :
  succeeds_with (main W argv) h ->
  exists earlier adjustment,
    log_lines (main W argv) =
      earlier ++ [MsgRatio (energy_ratio h)] ++ adjustment
        ++ [MsgSelected (start h) (start h + duration h)] /\
    (adjustment = [] \/ exists raw_start, adjustment = [MsgAdjust raw_start]).
Proof.
  intro Hrun. apply succeeds_iff in Hrun as [Hge Han].
  assert (Hlt : (length argv <? 2)%nat = false) by (apply Nat.ltb_ge; exact Hge).
  unfold main. rewrite Hlt.
  unfold analysis, rhythm, selection, select_window, rbind in Han.
  unfold try_block, log_debug, emit, lift, bind. cbn [app].
  destruct (librosa_load W (nth 1 argv EmptyString)) as [[y sr]|e]; [|discriminate].
  cbn [app].
  destruct (beat_track W y sr) as [[tempo beats]|e]; [|discriminate].
  destruct (float_of_tempo tempo) as [t|e]; [|discriminate].
  cbn [app].
  destruct (onset_strength W y sr) as [env|e]; [|discriminate].
  destruct (np_ones (window_size sr)) as [ones|e]; [|discriminate].
  destruct (np_convolve_valid env ones) as [curve|e]; [|discriminate].
  destruct (np_argmax curve) as [idx|e]; [|discriminate].
  destruct (py_div (nth idx curve 0) (np_mean curve)) as [ratio|e]; [|discriminate].
  injection Han as <-. unfold clamp_start, highlight_duration, ret.
  destruct (Qgtb (frames_to_time idx sr) (get_duration y sr - 20)); cbn [app].
  - exists [MsgProcessing (nth 1 argv EmptyString); MsgDuration (get_duration y sr);
            MsgTempo t; MsgBeats (length beats)],
           [MsgAdjust (frames_to_time idx sr)].
    split; [reflexivity|]. right. eexists. reflexivity.
  - exists [MsgProcessing (nth 1 argv EmptyString); MsgDuration (get_duration y sr);
            MsgTempo t; MsgBeats (length beats)], [].
    split; [reflexivity|]. left. reflexivity.
Qed.

Lemma log_reports_the_result_witness :
  exists earlier adjustment,
    log_lines (main track_world track_argv) =
      earlier ++ [MsgRatio (energy_ratio track_highlight)] ++ adjustment
        ++ [MsgSelected (start track_highlight)
              (start track_highlight + duration track_highlight)].
Proof.
  destruct (log_reports_the_result track_world track_argv track_highlight)
    as (earlier & adjustment & H & _).
  - split; vm_compute; reflexivity.
  - exists earlier, adjustment. exact H.
Defined.
